(** * DAG designer: graph store, dependency resolver and export

  A shallow embedding of [dag_builder.py], [function_registry.py] and
  [dependency_resolver.py].  Python values that cross the API (node
  parameters, exported documents) are JSON-shaped; the networkx
  [DiGraph] is kept as two insertion-ordered lists, because the
  resolver's output depends on iteration order; [indegree_map] is a
  finite map and [visited] a finite set.  Methods of [DAGBuilder]
  thread the graph explicitly and return the graph left behind together
  with either a value or the exception raised. *)

From stdpp Require Import base tactics option list relations strings gmap.
From Stdlib Require Import ZArith Lia.

#[local] Set Warnings "-register-all,-clear-no-such-hyp".

(* ===================================================================== *)
(** ** Python values, exceptions and the operators the code applies *)
(* ===================================================================== *)

Module Py.

(** JSON-shaped Python objects.  A [dict] keeps its keys in insertion
    order; a float is carried as mantissa and exponent and is only ever
    inspected by [isinstance]. *)
Inductive value : Type :=
| PNone
| PBool (b : bool)
| PInt (n : Z)
| PFloat (m e : Z)
| PStr (s : string)
| PList (l : list value)
| PDict (d : list (string * value)).

(** The exceptions that the modelled code can raise.  [ValueError]
    carries the message built by the source's f-string. *)
Inductive exn : Type :=
| ValueError (msg : string)
| KeyError (key : string)
| TypeError
| AttributeError.

Inductive result (A : Type) : Type :=
| Ok (a : A)
| Raise (e : exn).
Arguments Ok {A} a.
Arguments Raise {A} e.

#[export] Instance result_ret : MRet result := @Ok.
#[export] Instance result_bind : MBind result := λ A B f m,
  match m with Ok a => f a | Raise e => Raise e end.

(** [str(e)] for an exception [e]. *)
Definition str_exn (e : exn) : string :=
  match e with
  | ValueError msg => msg
  | KeyError key => "'" +:+ key +:+ "'"
  | TypeError => "TypeError"
  | AttributeError => "AttributeError"
  end.

(** [for x in xs: acc = f(acc, x)], stopping at the first exception. *)
Fixpoint foldM {A B : Type} (f : A → B → result A) (acc : A) (xs : list B)
  : result A :=
  match xs with
  | [] => Ok acc
  | x :: xs' => acc' ← f acc x; foldM f acc' xs'
  end.

(** A list comprehension whose body may raise. *)
Fixpoint mapM {A B : Type} (f : A → result B) (xs : list A) : result (list B) :=
  match xs with
  | [] => Ok []
  | x :: xs' => y ← f x; ys ← mapM f xs'; Ok (y :: ys)
  end.

(** *** isinstance *)

Definition is_dict (v : value) : bool :=
  match v with PDict _ => true | _ => false end.
Definition is_str (v : value) : bool :=
  match v with PStr _ => true | _ => false end.
(** [isinstance(v, (int, float))]: [bool] is a subclass of [int]. *)
Definition is_int_or_float (v : value) : bool :=
  match v with PInt _ | PFloat _ _ | PBool _ => true | _ => false end.

(** *** dict access *)

Fixpoint dict_get (d : list (string * value)) (k : string) : option value :=
  match d with
  | [] => None
  | (k', v) :: d' => if String.eqb k' k then Some v else dict_get d' k
  end.

Definition dict_has (d : list (string * value)) (k : string) : bool :=
  match dict_get d k with Some _ => true | None => false end.

(** [d[k] = v]: an existing key keeps its position, a new one goes last. *)
Fixpoint dict_set (d : list (string * value)) (k : string) (v : value)
  : list (string * value) :=
  match d with
  | [] => [(k, v)]
  | (k', v') :: d' =>
      if String.eqb k' k then (k', v) :: d' else (k', v') :: dict_set d' k v
  end.

(** *** operators with a string on the left *)

(** [p in s] for two strings: substring test. *)
Fixpoint substringb (p s : string) : bool :=
  String.prefix p s ||
  match s with
  | EmptyString => false
  | String _ s' => substringb p s'
  end.

Definition str_eqb (k : string) (v : value) : bool :=
  match v with PStr s => String.eqb k s | _ => false end.

(** [k in c] with [k] a string literal. *)
Definition contains (k : string) (c : value) : result bool :=
  match c with
  | PDict d => Ok (dict_has d k)
  | PList l => Ok (existsb (str_eqb k) l)
  | PStr s => Ok (substringb k s)
  | PNone | PBool _ | PInt _ | PFloat _ _ => Raise TypeError
  end.

(** [c[k]] with [k] a string literal. *)
Definition getitem (c : value) (k : string) : result value :=
  match c with
  | PDict d =>
      match dict_get d k with
      | Some v => Ok v
      | None => Raise (KeyError k)
      end
  | _ => Raise TypeError
  end.

(** [c[k] = v] with [k] a string literal. *)
Definition setitem (c : value) (k : string) (v : value) : result value :=
  match c with
  | PDict d => Ok (PDict (dict_set d k v))
  | _ => Raise TypeError
  end.

(** [xs.append]: looking the method up succeeds on a list only; the
    items of that list are returned, for the call to extend. *)
Definition append_method (xs : value) : result (list value) :=
  match xs with
  | PList l => Ok l
  | _ => Raise AttributeError
  end.

Fixpoint chars (s : string) : list value :=
  match s with
  | EmptyString => []
  | String c s' => PStr (String c EmptyString) :: chars s'
  end.

(** The sequence a [for] loop runs over. *)
Definition iter (c : value) : result (list value) :=
  match c with
  | PList l => Ok l
  | PDict d => Ok (PStr <$> d.*1)
  | PStr s => Ok (chars s)
  | PNone | PBool _ | PInt _ | PFloat _ _ => Raise TypeError
  end.

(** [repr] of a list of strings, as an f-string prints it. *)
Fixpoint repr_items (l : list string) : string :=
  match l with
  | [] => ""
  | [x] => "'" +:+ x +:+ "'"
  | x :: l' => "'" +:+ x +:+ "', " +:+ repr_items l'
  end.
Definition repr_list (l : list string) : string := "[" +:+ repr_items l +:+ "]".

End Py.
Export Py.

(* ===================================================================== *)
(** ** function_registry.py *)
(* ===================================================================== *)

Module FunctionRegistry.

Inductive operation : Type := add_operation | sma_operation | adx_operation.

(** Node type ↦ (function, required parameter names). *)
Definition function_registry : gmap string (operation * list string) :=
  list_to_map
    [ ("ADD", (add_operation, ["columns"; "value"]));
      ("SMA", (sma_operation, ["window_size"; "column"]));
      ("ADX", (adx_operation, ["high"; "low"; "close"; "time_period"])) ].

Definition get_operation_function (node_type : string)
  : result (operation * list string) :=
  match function_registry !! node_type with
  | Some entry => Ok entry
  | None => Raise (ValueError ("Unsupported node type: " +:+ node_type))
  end.

End FunctionRegistry.
Export FunctionRegistry.

(* ===================================================================== *)
(** ** The networkx DiGraph the builder owns *)
(* ===================================================================== *)

Module NX.

(** The attribute dict [add_node] stores: [type=..., parameters=...]. *)
Record node_data : Type := NodeData { type : string; parameters : value }.

(** Nodes in insertion order with their attributes; edges in insertion
    order.  [successors] and [edges()] of networkx iterate adjacency
    dicts, whose order is the relative insertion order kept here. *)
Record DiGraph : Type := Graph {
  nodes : list (string * node_data);
  edges : list (string * string)
}.

Definition empty_graph : DiGraph := Graph [] [].

Definition node_ids (g : DiGraph) : list string := (nodes g).*1.

(** [n in graph] *)
Definition has_node (g : DiGraph) (n : string) : bool :=
  bool_decide (n ∈ node_ids g).

(** [graph.has_edge(u, v)] *)
Definition has_edge (g : DiGraph) (u v : string) : bool :=
  bool_decide ((u, v) ∈ edges g).

(** [graph.nodes[n]] *)
Fixpoint lookup_node (ns : list (string * node_data)) (n : string)
  : option node_data :=
  match ns with
  | [] => None
  | (n', d) :: ns' => if String.eqb n' n then Some d else lookup_node ns' n
  end.

Fixpoint update_node (ns : list (string * node_data)) (n : string)
  (d : node_data) : list (string * node_data) :=
  match ns with
  | [] => [(n, d)]
  | (n', d') :: ns' =>
      if String.eqb n' n then (n', d) :: ns' else (n', d') :: update_node ns' n d
  end.

(** [graph.add_node(n, **attrs)]: a new node goes last, an existing one
    has its attributes replaced. *)
Definition add_node (g : DiGraph) (n : string) (d : node_data) : DiGraph :=
  Graph (update_node (nodes g) n d) (edges g).

(** [graph.remove_node(n)]: the node and every edge incident to it. *)
Definition remove_node (g : DiGraph) (n : string) : DiGraph :=
  Graph (filter (λ p, p.1 ≠ n) (nodes g))
        (filter (λ e, e.1 ≠ n ∧ e.2 ≠ n) (edges g)).

(** [graph.add_edge(u, v)] between two nodes that exist (the builder
    checks both before the call, so networkx never has to create one).
    An edge already present is left where it is. *)
Definition add_edge (g : DiGraph) (u v : string) : DiGraph :=
  if has_edge g u v then g else Graph (nodes g) (edges g ++ [(u, v)]).

(** [graph.remove_edge(u, v)] of an edge that exists. *)
Definition remove_edge (g : DiGraph) (u v : string) : DiGraph :=
  Graph (nodes g) (filter (λ e, e ≠ (u, v)) (edges g)).

(** [graph.clear()] *)
Definition clear (g : DiGraph) : DiGraph := empty_graph.

(** [graph.in_degree(n)] *)
Definition in_degree (g : DiGraph) (n : string) : Z :=
  Z.of_nat (length (filter (λ e, e.2 = n) (edges g))).

(** [graph.successors(n)] *)
Definition successors (g : DiGraph) (n : string) : list string :=
  (filter (λ e, e.1 = n) (edges g)).*2.

(** [graph.edges()]: by source in node order, then by insertion. *)
Definition edges_view (g : DiGraph) : list (string * string) :=
  n ← node_ids g; (λ v, (n, v)) <$> successors g n.

(** Depth-bounded search: is [v] reachable from [u] by a walk of at
    least one and at most [depth] edges? *)
Fixpoint reach_within (g : DiGraph) (depth : nat) (u v : string) : bool :=
  match depth with
  | O => false
  | S depth' =>
      existsb (λ w, String.eqb w v || reach_within g depth' w v)
              (successors g u)
  end.

(** The truth value of [list(nx.simple_cycles(graph))]: some node lies
    on a directed cycle (a self-loop counts).  An elementary cycle has
    at most as many edges as the graph has nodes. *)
Definition has_simple_cycles (g : DiGraph) : bool :=
  existsb (λ u, reach_within g (length (nodes g)) u u) (node_ids g).

End NX.
Export NX.

(* ===================================================================== *)
(** ** dag_builder.py *)
(* ===================================================================== *)

Module DAGBuilder.

(** A method of the builder takes [self.graph] and gives back the graph it
    leaves behind, with the value returned or the exception raised. *)
Definition method (A : Type) : Type := DiGraph → DiGraph * result A.

(** The messages of the [ValueError]s the builder raises; the spec calls
    them [UnknownKindError], [DuplicateNodeError], [NodeNotFoundError] and
    [CycleError]. *)
Definition UnknownKindError (node_type : string) : exn :=
  ValueError ("Unsupported node type: " +:+ node_type +:+ ". Error: "
              +:+ "Unsupported node type: " +:+ node_type).
Definition DuplicateNodeError (node_id : string) : exn :=
  ValueError ("Node with id " +:+ node_id +:+ " already exists.").
Definition InvalidParametersError (node_type : string) : exn :=
  ValueError ("Invalid parameters for node type " +:+ node_type +:+ ".").
Definition NodeNotFoundError : exn :=
  ValueError "One of the nodes in the edge does not exist.".
Definition CycleError : exn :=
  ValueError "Adding this edge would create a cycle.".

(** The body of the [for param in parameters] loop of
    [_validate_parameters], on an element already known to be a dict. *)
Definition valid_ADD_param (param : value) : bool :=
  match param with
  | PDict d =>
      if dict_has d "column" then
        match dict_get d "column" with Some c => is_str c | None => false end
      else if dict_has d "value" then
        match dict_get d "value" with
        | Some v => is_int_or_float v
        | None => false
        end
      else false
  | _ => false
  end.

Definition _validate_parameters (node_type : string) (parameters : value)
  : bool :=
  if String.eqb node_type "ADD" then
    match parameters with
    | PList params =>
        if forallb is_dict params then forallb valid_ADD_param params
        else false
    | _ => false
    end
  else true.

(** One round of the loop of [_convert_to_internal_parameters]. *)
Definition convert_param (internal_params param : value) : result value :=
  has_column ← contains "column" param;
  if has_column : bool then
    columns ← getitem internal_params "columns";
    items ← append_method columns;
    column ← getitem param "column";
    setitem internal_params "columns" (PList (items ++ [column]))
  else
    has_value ← contains "value" param;
    if has_value : bool then
      v ← getitem param "value";
      setitem internal_params "value" v
    else Ok internal_params.

Definition _convert_to_internal_parameters (parameters : value)
  : result value :=
  params ← iter parameters;
  foldM convert_param (PDict [("sources", PList [])]) params.

Definition add_node (node_id node_type : string) (parameters : value)
  : method unit := λ graph,
  match get_operation_function node_type with
  | Raise e =>
      (graph, Raise (ValueError ("Unsupported node type: " +:+ node_type
                                 +:+ ". Error: " +:+ str_exn e)))
  | Ok _ =>
      if has_node graph node_id then (graph, Raise (DuplicateNodeError node_id))
      else if negb (_validate_parameters node_type parameters) then
        (graph, Raise (InvalidParametersError node_type))
      else
        match _convert_to_internal_parameters parameters with
        | Raise e => (graph, Raise e)
        | Ok internal_parameters =>
            (NX.add_node graph node_id (NodeData node_type internal_parameters),
             Ok ())
        end
  end.

Definition remove_node (node_id : string) : method unit := λ graph,
  if has_node graph node_id then (NX.remove_node graph node_id, Ok ())
  else (graph, Ok ()).

Definition add_edge (source_id target_id : string) : method unit := λ graph,
  if negb (has_node graph source_id) || negb (has_node graph target_id) then
    (graph, Raise NodeNotFoundError)
  else
    let graph := NX.add_edge graph source_id target_id in
    if has_simple_cycles graph then
      (NX.remove_edge graph source_id target_id, Raise CycleError)
    else (graph, Ok ()).

Definition remove_edge (source_id target_id : string) : method unit := λ graph,
  if has_edge graph source_id target_id then
    (NX.remove_edge graph source_id target_id, Ok ())
  else (graph, Ok ()).

Definition _convert_from_internal_parameters (parameters : value)
  : result value :=
  columns ← getitem parameters "columns";
  cols ← iter columns;
  let params := (λ col, PDict [("column", col)]) <$> cols in
  v ← getitem parameters "value";
  match v with
  | PNone => Ok (PList params)
  | _ => Ok (PList (params ++ [PDict [("value", v)]]))
  end.

Definition node_to_json (n : string * node_data) : result value :=
  ps ← _convert_from_internal_parameters (parameters n.2);
  Ok (PDict [("id", PStr n.1); ("type", PStr (type n.2)); ("parameters", ps)]).

Definition edge_to_json (e : string * string) : value :=
  PDict [("source", PStr e.1); ("target", PStr e.2)].

(** [to_json] reads the graph and does not change it.  The document is
    kept as the object handed to [json.dumps]; serialising it and parsing
    it back is the identity on such objects. *)
Definition to_json (graph : DiGraph) : result value :=
  nodes ← mapM node_to_json (nodes graph);
  let edges := edge_to_json <$> edges_view graph in
  Ok (PDict [("nodes", PList nodes); ("edges", PList edges)]).

(** [save_to_file]: the content written to the file, when it is written. *)
Definition save_to_file (graph : DiGraph) : result value := to_json graph.

(** The builder is modelled with ids and kinds that are strings, as
    [to_json] writes them.  [load_from_file] takes them out of the
    document with [as_str]; the source hands whatever the document holds
    to [add_node] and [add_edge], so a document with another JSON value
    in these places is outside the model, and the statements about
    loading are about documents whose ids and kinds are strings. *)
Definition as_str (v : value) : result string :=
  match v with PStr s => Ok s | _ => Raise TypeError end.

(** [{"column": p["column"]} if "column" in p else {"value": p["value"]}] *)
Definition load_param (p : value) : result value :=
  has_column ← contains "column" p;
  if has_column : bool then
    c ← getitem p "column"; Ok (PDict [("column", c)])
  else
    v ← getitem p "value"; Ok (PDict [("value", v)]).

Definition load_node (node : value) : method unit := λ graph,
  match
    (raw ← getitem node "parameters";
     ps ← iter raw;
     converted_parameters ← mapM load_param ps;
     id ← getitem node "id";
     ty ← getitem node "type";
     id ← as_str id; ty ← as_str ty;
     Ok (id, ty, PList converted_parameters))
  with
  | Raise e => (graph, Raise e)
  | Ok (id, ty, converted_parameters) => add_node id ty converted_parameters graph
  end.

Definition load_edge (edge : value) : method unit := λ graph,
  match
    (s ← getitem edge "source";
     t ← getitem edge "target";
     s ← as_str s; t ← as_str t;
     Ok (s, t))
  with
  | Raise e => (graph, Raise e)
  | Ok (s, t) => add_edge s t graph
  end.

(** [for x in xs: step(x)] on the builder, stopping at the first exception. *)
Fixpoint for_each (step : value → method unit) (xs : list value)
  : method unit := λ graph,
  match xs with
  | [] => (graph, Ok ())
  | x :: xs' =>
      match step x graph with
      | (graph', Ok _) => for_each step xs' graph'
      | (graph', Raise e) => (graph', Raise e)
      end
  end.

(** [load_from_file], from the parsed content [dag_config] of the file. *)
Definition load_from_file (dag_config : value) : method unit := λ graph,
  let graph := NX.clear graph in
  match (ns ← getitem dag_config "nodes"; iter ns) with
  | Raise e => (graph, Raise e)
  | Ok ns =>
      match for_each load_node ns graph with
      | (graph, Raise e) => (graph, Raise e)
      | (graph, Ok _) =>
          match (es ← getitem dag_config "edges"; iter es) with
          | Raise e => (graph, Raise e)
          | Ok es => for_each load_edge es graph
          end
      end
  end.

(** The mutation API, as calls a client can make. *)
Inductive call : Type :=
| AddNode (node_id node_type : string) (parameters : value)
| RemoveNode (node_id : string)
| AddEdge (source_id target_id : string)
| RemoveEdge (source_id target_id : string).

Definition run (c : call) : method unit :=
  match c with
  | AddNode node_id node_type parameters => add_node node_id node_type parameters
  | RemoveNode node_id => remove_node node_id
  | AddEdge source_id target_id => add_edge source_id target_id
  | RemoveEdge source_id target_id => remove_edge source_id target_id
  end.

(** The graph of a builder after a sequence of calls, failed ones included. *)
Definition replay (calls : list call) : DiGraph :=
  foldl (λ graph c, (run c graph).1) empty_graph calls.

(** A graph the store accepts is one some sequence of calls builds. *)
Definition accepted (graph : DiGraph) : Prop :=
  ∃ calls, graph = replay calls.

End DAGBuilder.

(* ===================================================================== *)
(** ** dependency_resolver.py *)
(* ===================================================================== *)

Module DependencyResolver.

(** [delayed(execute_node)(graph.nodes[node], node)]: the call kept for
    later, with its two arguments. *)
Definition delayed : Type := node_data * string.

Definition node_of (op : delayed) : string := op.2.

(** The variables of the [while queue] loop. *)
Record state : Type := State {
  queue : list string;
  visited : gset string;
  indegree_map : gmap string Z;
  execution_plan : list delayed
}.

(** The body of [for successor in graph.successors(node)], on the two
    variables it updates. *)
Definition relax (acc : gmap string Z * list string) (successor : string)
  : result (gmap string Z * list string) :=
  match acc.1 !! successor with
  | None => Raise (KeyError successor)
  | Some d =>
      let indegree_map := <[successor := (d - 1)%Z]> acc.1 in
      if decide (d - 1 = 0)%Z then Ok (indegree_map, acc.2 ++ [successor])
      else Ok (indegree_map, acc.2)
  end.

(** The loop, run for at most [fuel] tests of its condition; [None] when
    they do not suffice. *)
Fixpoint while_queue (fuel : nat) (graph : DiGraph) (st : state)
  : option (result state) :=
  match fuel with
  | O => None
  | S fuel' =>
      match queue st with
      | [] => Some (Ok st)
      | node :: queue' =>
          match lookup_node (nodes graph) node with
          | None => Some (Raise (KeyError node))
          | Some data =>
              match foldM relax (indegree_map st, queue')
                          (successors graph node) with
              | Raise e => Some (Raise e)
              | Ok (indegree_map', queue'') =>
                  while_queue fuel' graph
                    (State queue'' ({[node]} ∪ visited st) indegree_map'
                           (execution_plan st ++ [(data, node)]))
              end
          end
      end
  end.

Definition initial_state (graph : DiGraph) : state :=
  let indegree_map : gmap string Z :=
    list_to_map ((λ node, (node, in_degree graph node)) <$> node_ids graph) in
  State (filter (λ node, indegree_map !! node = Some 0%Z) (node_ids graph))
        ∅ indegree_map [].

Definition ConsistencyError : exn :=
  ValueError "The graph contains a cycle, which is not allowed in a DAG.".

Definition resolve_dependencies (fuel : nat) (graph : DiGraph)
  : option (result (list delayed)) :=
  match while_queue fuel graph (initial_state graph) with
  | None => None
  | Some (Raise e) => Some (Raise e)
  | Some (Ok st) =>
      if decide (size (visited st) ≠ length (nodes graph)) then
        Some (Raise ConsistencyError)
      else Some (Ok (execution_plan st))
  end.

Definition MissingParameterError (node_id node_type : string)
  (missing_params : list string) : exn :=
  ValueError ("Missing required parameters for node " +:+ node_id
              +:+ " of type " +:+ node_type +:+ ": "
              +:+ repr_list missing_params).

(** [[param for param in required_params if param not in parameters]] *)
Fixpoint missing_params (required_params : list string) (parameters : value)
  : result (list string) :=
  match required_params with
  | [] => Ok []
  | param :: rest =>
      present ← contains param parameters;
      missing ← missing_params rest parameters;
      Ok (if present : bool then missing else param :: missing)
  end.

(** [execute_node].  What an operation function does with its parameters
    lies outside the builder (logging, numpy, talib), so the invocation is
    the argument [invoke]. *)
Definition execute_node (invoke : operation → value → result value)
  (node_data : node_data) (node_id : string) : result unit :=
  let node_type := type node_data in
  '(operation_function, required_params) ← get_operation_function node_type;
  let parameters := parameters node_data in
  missing ← missing_params required_params parameters;
  match missing with
  | _ :: _ => Raise (MissingParameterError node_id node_type missing)
  | [] => _ ← invoke operation_function parameters; Ok ()
  end.

End DependencyResolver.

(* ===================================================================== *)
(** ** app.py *)
(* ===================================================================== *)

Module App.

(** What [jsonify] is given: a message, the [str] of the exception that
    was caught, or the exported document. *)
Inductive body : Type :=
| Message (text : string)
| Error (e : exn)
| Dag (document : value).

(** A node id or a node kind in the JSON of a request.  The builder is
    modelled for ids and kinds that are strings; a request that names a
    node or a kind by another JSON value has no answer here. *)
Definition name (v : value) : option string :=
  match v with PStr s => Some s | _ => None end.

(** A route works on the one builder of the module and answers with a
    body and a status code.  Its input is the parsed JSON of the
    request. *)
Definition route : Type := DiGraph → option (DiGraph * (body * Z)).

(** [<call>; return message, 200; except Exception as e: return str(e),
    400] around the outcome of a builder method. *)
Definition answer (text : string) (outcome : DiGraph * result unit)
  : DiGraph * (body * Z) :=
  match outcome with
  | (graph, Ok _) => (graph, (Message text, 200%Z))
  | (graph, Raise e) => (graph, (Error e, 400%Z))
  end.

(** [data['id'], data['type'], data['parameters']], evaluated in this
    order inside the [try]. *)
Definition node_arguments (data : value) : result (value * value * value) :=
  id ← getitem data "id";
  ty ← getitem data "type";
  parameters ← getitem data "parameters";
  Ok (id, ty, parameters).

(** [data['source'], data['target']] *)
Definition edge_arguments (data : value) : result (value * value) :=
  s ← getitem data "source";
  t ← getitem data "target";
  Ok (s, t).

Definition add_node (data : value) : route := λ graph,
  match node_arguments data with
  | Raise e => Some (graph, (Error e, 400%Z))
  | Ok (id, ty, parameters) =>
      id ← name id; ty ← name ty;
      Some (answer "Node added successfully"
              (DAGBuilder.add_node id ty parameters graph))
  end.

Definition remove_node (node_id : string) : route := λ graph,
  Some (answer "Node removed successfully"
          (DAGBuilder.remove_node node_id graph)).

Definition add_edge (data : value) : route := λ graph,
  match edge_arguments data with
  | Raise e => Some (graph, (Error e, 400%Z))
  | Ok (s, t) =>
      s ← name s; t ← name t;
      Some (answer "Edge added successfully" (DAGBuilder.add_edge s t graph))
  end.

Definition remove_edge (data : value) : route := λ graph,
  match edge_arguments data with
  | Raise e => Some (graph, (Error e, 400%Z))
  | Ok (s, t) =>
      s ← name s; t ← name t;
      Some (answer "Edge removed successfully"
              (DAGBuilder.remove_edge s t graph))
  end.

Definition get_dag : route := λ graph,
  match DAGBuilder.to_json graph with
  | Ok document => Some (graph, (Dag document, 200%Z))
  | Raise e => Some (graph, (Error e, 400%Z))
  end.

End App.

(* ===================================================================== *)
(** ** Notions the properties are stated with *)
(* ===================================================================== *)

Module Props.

(** [u -> v] is an edge of the graph. *)
Definition edge (g : DiGraph) : relation string := λ u v, (u, v) ∈ edges g.

#[export] Instance edge_dec (g : DiGraph) : RelDecision (edge g) :=
  λ u v, decide ((u, v) ∈ edges g).

(** What networkx guarantees of any [DiGraph]: a node appears once, an
    edge appears once, and both ends of an edge are nodes. *)
Definition well_formed (g : DiGraph) : Prop :=
  NoDup (node_ids g) ∧ NoDup (edges g) ∧
  ∀ u v, edge g u v → u ∈ node_ids g ∧ v ∈ node_ids g.

(** No node reaches itself along one or more edges. *)
Definition acyclic (g : DiGraph) : Prop := ∀ x, ¬ tc (edge g) x x.

(** [u] stands at an earlier position of [l] than [v]. *)
Definition before (u v : string) (l : list string) : Prop :=
  ∃ i j, l !! i = Some u ∧ l !! j = Some v ∧ i < j.

(** The number of edges into [v] that come from a node outside [done]. *)
Definition pending (g : DiGraph) (done : list string) (v : string) : nat :=
  length (filter (λ e, e.2 = v ∧ e.1 ∉ done) (edges g)).

(** Every stored node carries a dict without the key ["columns"]. *)
Definition no_columns (g : DiGraph) : Prop :=
  ∀ n d, (n, d) ∈ nodes g →
    ∃ items, parameters d = PDict items ∧ dict_get items "columns" = None.

(** The invariant of the graph a builder owns. *)
Definition store_invariant (g : DiGraph) : Prop :=
  well_formed g ∧ acyclic g ∧ no_columns g.

(** The nodes placed in the plan so far, in plan order. *)
Definition placed (st : DependencyResolver.state) : list string :=
  DependencyResolver.node_of <$> DependencyResolver.execution_plan st.

(** What holds each time the [while] condition is tested. *)
Definition kahn_invariant (g : DiGraph) (st : DependencyResolver.state)
  : Prop :=
  let queue := DependencyResolver.queue st in
  NoDup (placed st ++ queue) ∧
  (∀ x, x ∈ placed st ++ queue → x ∈ node_ids g) ∧
  (∀ v, v ∈ node_ids g →
     DependencyResolver.indegree_map st !! v
     = Some (Z.of_nat (pending g (placed st) v))) ∧
  (∀ v, v ∈ node_ids g →
     v ∈ placed st ++ queue ↔ pending g (placed st) v = 0) ∧
  DependencyResolver.visited st = list_to_set (placed st) ∧
  (∀ u v, edge g u v → v ∈ placed st → before u v (placed st)) ∧
  (∀ op, op ∈ DependencyResolver.execution_plan st → (op.2, op.1) ∈ nodes g).

(** The scenario of the specification: node [A] of kind ADD, node [B] of
    kind SMA, and the edge [A -> B]. *)
Definition scenario_calls : list DAGBuilder.call :=
  [ DAGBuilder.AddNode "A" "ADD" (PList [PDict [("value", PInt 5)]]);
    DAGBuilder.AddNode "B" "SMA" (PList []);
    DAGBuilder.AddEdge "A" "B" ].

Definition scenario_graph : DiGraph := DAGBuilder.replay scenario_calls.

End Props.
Export Props.

(* ===================================================================== *)
(** ** Persisted documents and further notions *)
(* ===================================================================== *)

Module Persisted.

(** An entry of a persisted parameter list: [{"column": c}] or
    [{"value": v}]. *)
Inductive entry : Type :=
| Column (c : value)
| Value (v : value).

Definition entry_json (e : entry) : value :=
  match e with
  | Column c => PDict [("column", c)]
  | Value v => PDict [("value", v)]
  end.

(** A node of a persisted document. *)
Record node_spec : Type := NodeSpec {
  spec_id : string;
  spec_type : string;
  spec_parameters : list entry
}.

Definition node_json (n : node_spec) : value :=
  PDict [("id", PStr (spec_id n)); ("type", PStr (spec_type n));
         ("parameters", PList (entry_json <$> spec_parameters n))].

(** The document of the persisted schema with these nodes and edges. *)
Definition document (ns : list node_spec) (es : list (string * string))
  : value :=
  PDict [("nodes", PList (node_json <$> ns));
         ("edges", PList (DAGBuilder.edge_to_json <$> es))].

(** The calls a client would make for the same nodes and edges. *)
Definition calls_of (ns : list node_spec) (es : list (string * string))
  : list DAGBuilder.call :=
  ((λ n, DAGBuilder.AddNode (spec_id n) (spec_type n)
           (PList (entry_json <$> spec_parameters n))) <$> ns)
  ++ ((λ e, DAGBuilder.AddEdge e.1 e.2) <$> es).

(** Calls made one after the other, up to the first that raises. *)
Fixpoint run_all (calls : list DAGBuilder.call) : DAGBuilder.method unit :=
  λ graph,
  match calls with
  | [] => (graph, Ok ())
  | c :: calls' =>
      match DAGBuilder.run c graph with
      | (graph', Ok _) => run_all calls' graph'
      | (graph', Raise e) => (graph', Raise e)
      end
  end.

(** Every stored node has a registered kind and a parameter dict whose
    keys are among ["sources"] and ["value"]. *)
Definition stored_shape (g : DiGraph) : Prop :=
  ∀ n d, (n, d) ∈ nodes g →
    is_Some (function_registry !! type d) ∧
    ∃ items, parameters d = PDict items ∧
      ∀ k, dict_has items k = true → k = "sources" ∨ k = "value".

(** An entry a node of kind ADD can be stored with: a dict without
    ["column"] whose ["value"] is a number. *)
Definition value_entry (p : value) : Prop :=
  ∃ d v, p = PDict d ∧ dict_has d "column" = false ∧
         dict_get d "value" = Some v ∧ is_int_or_float v = true.

(** The value of the last entry that has one. *)
Definition last_value (entries : list value) : option value :=
  last (omap (λ p, match p with PDict d => dict_get d "value" | _ => None end)
             entries).

(** The parameter dict stored for entries without a column. *)
Definition stored_parameters (entries : list value) : value :=
  PDict (("sources", PList []) ::
         match last_value entries with
         | Some v => [("value", v)]
         | None => []
         end).

End Persisted.
Export Persisted.

(* ===================================================================== *)
(** ** Walks, cycles and the cycle test *)
(* ===================================================================== *)

Section graph_facts.
Context (g : DiGraph).

Lemma elem_of_successors u v : v ∈ successors g u ↔ edge g u v.
Proof.
  unfold successors, edge. rewrite list_elem_of_fmap. split.
  - intros [[a b] [-> [Ha Hin]%list_elem_of_filter]]. simpl in *. by subst.
  - intros H. exists (u, v). split; [done|]. by apply list_elem_of_filter.
Qed.

Lemma NoDup_successors u : NoDup (edges g) → NoDup (successors g u).
Proof.
  intros Hnd. unfold successors.
  apply NoDup_fmap_2_strong; [|by apply NoDup_filter].
  intros [a b] [c d] [Ha _]%list_elem_of_filter [Hc _]%list_elem_of_filter.
  simpl in *. congruence.
Qed.

Lemma reach_within_sound depth u v :
  reach_within g depth u v = true → tc (edge g) u v.
Proof.
  revert u. induction depth as [|depth IH]; intros u; simpl; [done|].
  rewrite existsb_exists. intros (w & Hw & H).
  apply list_elem_of_In, elem_of_successors in Hw.
  apply orb_true_iff in H as [->%String.eqb_eq | H].
  - by apply tc_once.
  - eapply tc_l; eauto.
Qed.

Lemma reach_within_complete depth k u v :
  0 < k ≤ depth → nsteps (edge g) k u v → reach_within g depth u v = true.
Proof.
  revert k u. induction depth as [|depth IH]; intros k u Hk Hst; [lia|].
  inv Hst; [lia|]. simpl. apply existsb_exists.
  match goal with H : edge g u ?y |- _ => exists y end.
  split; [by apply list_elem_of_In, elem_of_successors|].
  apply orb_true_iff.
  match goal with H : nsteps _ ?n _ _ |- _ => destruct n as [|n] end.
  - left. match goal with H : nsteps _ 0 _ _ |- _ => inv H end.
    apply String.eqb_refl.
  - right. eapply IH; [|done]. lia.
Qed.

End graph_facts.

Section pigeonhole.
Context {A : Type} `{EqDecision A}.

(** A list with a repetition has two positions holding the same item. *)
Lemma repeated_item (l : list A) :
  ¬ NoDup l → ∃ i j a, i < j ∧ l !! i = Some a ∧ l !! j = Some a.
Proof.
  induction l as [|x l IH]; intros Hnd.
  - destruct Hnd. constructor.
  - destruct (decide (x ∈ l)) as [Hin|Hnin].
    + apply list_elem_of_lookup in Hin as [j Hj].
      exists 0, (S j), x. split; [lia|done].
    + destruct IH as (i & j & a & Hij & Hi & Hj).
      { intros Hl. apply Hnd. by constructor. }
      exists (S i), (S j), a. split; [lia|done].
Qed.

(** More items than the set they come from has members: one is repeated. *)
Lemma crowded_list_repeats (l dom : list A) :
  (∀ x, x ∈ l → x ∈ dom) → length dom < length l →
  ∃ i j a, i < j ∧ l !! i = Some a ∧ l !! j = Some a.
Proof.
  intros Hsub Hlen. apply repeated_item. intros Hnd.
  apply (NoDup_submseteq _ dom) in Hnd; [|done].
  apply submseteq_length in Hnd. lia.
Qed.

(** A stretch of a walk is a walk between the two positions. *)
Lemma walk_segment (R : relation A) (l : list A) d : ∀ i a b,
  (∀ i a b, l !! i = Some a → l !! S i = Some b → R a b) →
  l !! i = Some a → l !! (i + d) = Some b → nsteps R d a b.
Proof.
  induction d as [|d IH]; intros i a b Hw Ha Hb.
  - rewrite Nat.add_0_r in Hb. simplify_eq. constructor.
  - destruct (lookup_lt_is_Some_2 l (S i)) as [c Hc].
    { apply lookup_lt_Some in Hb. lia. }
    econstructor; [by eapply Hw|].
    apply (IH (S i)); [done..|]. by replace (S i + d) with (i + S d) by lia.
Qed.

End pigeonhole.

Section cycle_test.
Context (g : DiGraph) (Hwf : well_formed g).

(** A closed walk can be cut down to one no longer than the node count. *)
Lemma short_cycle k : ∀ x,
  0 < k → nsteps (edge g) k x x →
  ∃ y k', 0 < k' ≤ length (nodes g) ∧ nsteps (edge g) k' y y.
Proof.
  induction (lt_wf k) as [k _ IH]. intros x Hk Hst.
  destruct (decide (k ≤ length (nodes g))) as [Hle|Hgt]; [by eauto 6|].
  pose proof Hst as (l & Hlen & _ & _ & Hw)%nsteps_list.
  destruct (crowded_list_repeats (take k l) (node_ids g)) as (i & j & a & Hij & Hi & Hj).
  - intros y [m Hm]%list_elem_of_lookup.
    apply lookup_take_Some in Hm as [Hm Hmk].
    destruct (lookup_lt_is_Some_2 l (S m)) as [z Hz]; [lia|].
    destruct Hwf as (_ & _ & Hends). by apply (Hends y z), (Hw m).
  - rewrite length_take. unfold node_ids. rewrite length_fmap. lia.
  - apply lookup_take_Some in Hi as [Hi Hik], Hj as [Hj Hjk].
    apply (IH (j - i) ltac:(lia) a ltac:(lia)).
    apply (walk_segment _ l (j - i) i a a Hw Hi).
    by replace (i + (j - i)) with j by lia.
Qed.

(** The cycle test is exact on a well-formed graph. *)
Lemma has_simple_cycles_true :
  has_simple_cycles g = true ↔ ∃ x, tc (edge g) x x.
Proof.
  unfold has_simple_cycles. rewrite existsb_exists. split.
  - intros (u & _ & Hu). exists u. by eapply reach_within_sound.
  - intros (x & (k & Hk & Hst)%tc_nsteps).
    destruct (short_cycle k x Hk Hst) as (y & k' & Hk' & Hy).
    exists y. split; [|by eapply reach_within_complete].
    apply list_elem_of_In. destruct Hwf as (_ & _ & Hends).
    inv Hy; [lia|]. eapply proj1, Hends. eassumption.
Qed.

(** In an acyclic graph a walk never has more edges than there are
    nodes. *)
Lemma walk_bound k x y :
  acyclic g → nsteps (edge g) k x y → k ≤ length (nodes g).
Proof.
  intros Hac Hst.
  destruct (decide (k ≤ length (nodes g))) as [Hle|Hgt]; [done|]. exfalso.
  pose proof Hst as (l & Hlen & _ & _ & Hw)%nsteps_list.
  destruct (crowded_list_repeats (take k l) (node_ids g))
    as (i & j & a & Hij & Hi & Hj).
  - intros z [m Hm]%list_elem_of_lookup.
    apply lookup_take_Some in Hm as [Hm Hmk].
    destruct (lookup_lt_is_Some_2 l (S m)) as [z' Hz]; [lia|].
    destruct Hwf as (_ & _ & Hends). by apply (Hends z z'), (Hw m).
  - rewrite length_take. unfold node_ids. rewrite length_fmap. lia.
  - apply lookup_take_Some in Hi as [Hi Hik], Hj as [Hj Hjk].
    apply (Hac a), tc_nsteps. exists (j - i). split; [lia|].
    apply (walk_segment _ l (j - i) i a a Hw Hi).
    by replace (i + (j - i)) with j by lia.
Qed.

(** Reachability in an acyclic graph is what a depth-first search from
    the start, no deeper than the node count, finds. *)
Lemma rtc_reach_within x y :
  acyclic g →
  rtc (edge g) x y ↔ x = y ∨ reach_within g (length (nodes g)) x y = true.
Proof.
  intros Hac. rewrite rtc_tc. split; (intros [?|H]; [by left|right]).
  - apply tc_nsteps in H as (k & Hk & Hst).
    eapply reach_within_complete; [|done]. split; [done|].
    by eapply walk_bound.
  - by eapply reach_within_sound.
Qed.

Lemma has_simple_cycles_false : has_simple_cycles g = false ↔ acyclic g.
Proof.
  unfold acyclic. split.
  - intros Hf x Hx. assert (has_simple_cycles g = true) as Ht
      by (apply has_simple_cycles_true; eauto).
    congruence.
  - intros Hac. apply not_true_is_false. intros Ht.
    apply has_simple_cycles_true in Ht as [x Hx]. by apply (Hac x).
Qed.

End cycle_test.

(* ===================================================================== *)
(** ** The networkx operations keep a graph well formed *)
(* ===================================================================== *)

Section nx_facts.
Context (g : DiGraph).

Lemma has_node_true n : has_node g n = true ↔ n ∈ node_ids g.
Proof. apply bool_decide_eq_true. Qed.

Lemma has_node_false n : has_node g n = false ↔ n ∉ node_ids g.
Proof. apply bool_decide_eq_false. Qed.

Lemma has_edge_true u v : has_edge g u v = true ↔ edge g u v.
Proof. apply bool_decide_eq_true. Qed.

Lemma update_node_fresh ns n d :
  n ∉ ns.*1 → update_node ns n d = ns ++ [(n, d)].
Proof.
  induction ns as [|[n' d'] ns IH]; simpl; [done|].
  rewrite not_elem_of_cons. intros [Hne Hnin].
  destruct (String.eqb_spec n' n); [congruence|]. by rewrite IH.
Qed.

Lemma lookup_node_Some ns n :
  n ∈ ns.*1 → ∃ d, lookup_node ns n = Some d ∧ (n, d) ∈ ns.
Proof.
  induction ns as [|[n' d'] ns IH]; simpl; [by intros ?%elem_of_nil|].
  destruct (String.eqb_spec n' n) as [->|Hne].
  - intros _. exists d'. split; [done|]. apply list_elem_of_here.
  - rewrite elem_of_cons. intros [?|Hin]; [congruence|].
    destruct (IH Hin) as (d & ? & ?). exists d. split; [done|].
    by apply list_elem_of_further.
Qed.

Lemma edge_add_edge s t x y :
  edge (NX.add_edge g s t) x y ↔ edge g x y ∨ (x = s ∧ y = t).
Proof.
  unfold NX.add_edge, edge. destruct (has_edge g s t) eqn:He; simpl.
  - apply has_edge_true in He. unfold edge in He. naive_solver.
  - rewrite elem_of_app, list_elem_of_singleton. naive_solver.
Qed.

Lemma nodes_add_edge s t : nodes (NX.add_edge g s t) = nodes g.
Proof. unfold NX.add_edge. by destruct (has_edge g s t). Qed.

Lemma well_formed_add_edge s t :
  well_formed g → s ∈ node_ids g → t ∈ node_ids g →
  well_formed (NX.add_edge g s t).
Proof.
  intros (Hn & He & Hends) Hs Ht. unfold NX.add_edge.
  destruct (has_edge g s t) eqn:Hst; [done|].
  apply not_true_iff_false in Hst. rewrite has_edge_true in Hst.
  split_and!; simpl; [done| |].
  - apply NoDup_app. split_and!; [done| |apply NoDup_singleton].
    intros e He' ->%list_elem_of_singleton. by apply Hst.
  - intros u v. unfold edge; simpl.
    rewrite elem_of_app, list_elem_of_singleton.
    intros [?|[= -> ->]]; [by apply Hends|done].
Qed.

Lemma edge_remove_edge s t x y :
  edge (NX.remove_edge g s t) x y → edge g x y.
Proof. unfold edge; simpl. by intros [_ ?]%list_elem_of_filter. Qed.

Lemma well_formed_remove_edge s t :
  well_formed g → well_formed (NX.remove_edge g s t).
Proof.
  intros (Hn & He & Hends). split_and!; [done|by apply NoDup_filter|].
  intros u v Huv%edge_remove_edge. by apply Hends.
Qed.

Lemma edge_remove_node n x y : edge (NX.remove_node g n) x y → edge g x y.
Proof. unfold edge; simpl. by intros [_ ?]%list_elem_of_filter. Qed.

Lemma node_ids_remove_node n x :
  x ∈ node_ids (NX.remove_node g n) ↔ x ∈ node_ids g ∧ x ≠ n.
Proof.
  unfold node_ids; simpl. rewrite !list_elem_of_fmap. split.
  - intros ([a d] & -> & [Ha Hin]%list_elem_of_filter). simpl in *.
    split; [|done]. by exists (a, d).
  - intros [([a d] & -> & Hin) Hne]. exists (a, d). split; [done|].
    by apply list_elem_of_filter.
Qed.

Lemma well_formed_remove_node n :
  well_formed g → well_formed (NX.remove_node g n).
Proof.
  intros (Hn & He & Hends). split_and!.
  - clear Hends. unfold node_ids in *; simpl. revert Hn.
    induction (nodes g) as [|[a d] ns IH]; simpl; [done|].
    rewrite NoDup_cons. intros [Ha Hns]. rewrite filter_cons.
    destruct (decide _); simpl; [|by apply IH].
    apply NoDup_cons. split; [|by apply IH].
    rewrite list_elem_of_fmap. intros ([a' d'] & ? & [_ Hin]%list_elem_of_filter).
    simpl in *; subst. apply Ha, list_elem_of_fmap. by exists (a', d').
  - by apply NoDup_filter.
  - intros u v. unfold edge at 1; simpl.
    intros [[Hu Hv] Hin]%list_elem_of_filter. simpl in *.
    rewrite !node_ids_remove_node. destruct (Hends u v Hin). done.
Qed.

Lemma well_formed_add_node n d :
  well_formed g → n ∉ node_ids g → well_formed (NX.add_node g n d).
Proof.
  intros (Hn & He & Hends) Hfresh. unfold NX.add_node, well_formed, node_ids.
  simpl. rewrite update_node_fresh by done. rewrite fmap_app. simpl.
  split_and!; [|done|].
  - apply NoDup_app. split_and!; [done| |apply NoDup_singleton].
    by intros x Hx ->%list_elem_of_singleton.
  - intros u v Huv. rewrite !elem_of_app.
    destruct (Hends u v Huv). by split; left.
Qed.

(** Adding an absent edge and removing it again restores the graph. *)
Lemma remove_add_edge s t :
  ¬ edge g s t → NX.remove_edge (NX.add_edge g s t) s t = g.
Proof.
  intros Hst. unfold NX.add_edge.
  destruct (has_edge g s t) eqn:He; [by apply has_edge_true in He|].
  unfold NX.remove_edge; simpl. rewrite filter_app.
  rewrite filter_cons_False by (by intros H; apply H).
  rewrite filter_nil, app_nil_r. destruct g as [ns es]; simpl in *. f_equal.
  clear He. induction es as [|e es IH]; [done|].
  rewrite filter_cons_True.
  - f_equal. apply IH. intros H. apply Hst. by apply list_elem_of_further.
  - intros ->. apply Hst. apply list_elem_of_here.
Qed.

End nx_facts.

(** A graph with fewer edges has no more cycles. *)
Lemma acyclic_subgraph (g g' : DiGraph) :
  (∀ x y, edge g' x y → edge g x y) → acyclic g → acyclic g'.
Proof.
  intros Hsub Hac x Hx. apply (Hac x).
  by apply (tc_congruence id (edge g)) in Hx.
Qed.

(** A walk of the graph with the edge [s -> t] added either avoids that
    edge, or reaches [s] before its first use and leaves [t] after its
    last. *)
Lemma tc_add_edge (g : DiGraph) s t x y :
  tc (edge (NX.add_edge g s t)) x y →
  tc (edge g) x y ∨ (rtc (edge g) x s ∧ rtc (edge g) t y).
Proof.
  induction 1 as [x y Hxy|x z y Hxz _ IH].
  - apply edge_add_edge in Hxy as [?|[-> ->]]; [left; by apply tc_once|].
    by right.
  - apply edge_add_edge in Hxz as [Hxz|[-> ->]].
    + destruct IH as [IH|[IH1 IH2]].
      * left. by eapply tc_l.
      * right. split; [|done]. by eapply rtc_l.
    + right. split; [done|]. destruct IH as [IH|[_ IH]]; [|done].
      by apply tc_rtc.
Qed.

(** On an acyclic graph the new edge closes a cycle exactly when its
    target already reaches its source. *)
Lemma cycle_after_add_edge (g : DiGraph) s t :
  acyclic g →
  (∃ x, tc (edge (NX.add_edge g s t)) x x) ↔ rtc (edge g) t s.
Proof.
  intros Hac. split.
  - intros [x Hx]. apply tc_add_edge in Hx as [Hx|[Hxs Htx]].
    + by apply Hac in Hx.
    + by etrans.
  - intros Hts. exists s. eapply tc_rtc_r.
    + apply tc_once, edge_add_edge. by right.
    + eapply rtc_congruence with (f := id); [|done].
      intros ???. apply edge_add_edge. by left.
Qed.

(* ===================================================================== *)
(** ** The builder: parameter conversion *)
(* ===================================================================== *)

Lemma dict_get_set_ne d k k' v :
  k ≠ k' → dict_get (dict_set d k v) k' = dict_get d k'.
Proof.
  intros Hne. induction d as [|[k0 v0] d IH]; simpl.
  - by destruct (String.eqb_spec k k').
  - destruct (String.eqb_spec k0 k) as [->|]; simpl.
    + by destruct (String.eqb_spec k k').
    + by rewrite IH.
Qed.

(** A round of the conversion loop that does not raise leaves a dict
    that still has no ["columns"]: the branch for a column reads that key
    and raises. *)
Lemma convert_param_no_columns items param v :
  dict_get items "columns" = None →
  DAGBuilder.convert_param (PDict items) param = Ok v →
  ∃ items', v = PDict items' ∧ dict_get items' "columns" = None.
Proof.
  intros Hnone. unfold DAGBuilder.convert_param.
  destruct (contains "column" param) as [[|]|e]; simpl; [|
    |done].
  - by rewrite Hnone.
  - destruct (contains "value" param) as [[|]|e]; simpl; [| |done].
    + destruct (getitem param "value") as [w|e]; simpl; [|done].
      intros [= <-]. eexists. split; [done|]. by rewrite dict_get_set_ne.
    + intros [= <-]. eauto.
Qed.

Lemma foldM_convert_no_columns params : ∀ items v,
  dict_get items "columns" = None →
  foldM DAGBuilder.convert_param (PDict items) params = Ok v →
  ∃ items', v = PDict items' ∧ dict_get items' "columns" = None.
Proof.
  induction params as [|p params IH]; intros items v Hnone; simpl.
  - intros [= <-]. eauto.
  - destruct (DAGBuilder.convert_param (PDict items) p) as [w|e] eqn:Hp;
      simpl; [|done].
    destruct (convert_param_no_columns _ _ _ Hnone Hp) as (items' & -> & ?).
    by apply IH.
Qed.

Lemma convert_to_internal_no_columns parameters v :
  DAGBuilder._convert_to_internal_parameters parameters = Ok v →
  ∃ items, v = PDict items ∧ dict_get items "columns" = None.
Proof.
  unfold DAGBuilder._convert_to_internal_parameters.
  destruct (iter parameters) as [ps|e]; simpl; [|done].
  by apply foldM_convert_no_columns.
Qed.

(** A column entry stops the conversion, whatever came before it. *)
Lemma foldM_convert_column params : ∀ items,
  dict_get items "columns" = None →
  Forall (λ p, is_dict p = true) params →
  Exists (λ p, contains "column" p = Ok true) params →
  foldM DAGBuilder.convert_param (PDict items) params = Raise (KeyError "columns").
Proof.
  induction params as [|p params IH]; intros items Hnone Hd Hex;
    [by apply Exists_nil in Hex|].
  apply Forall_cons in Hd as [Hp Hd]. simpl.
  destruct (DAGBuilder.convert_param (PDict items) p) as [w|e] eqn:Hw; simpl.
  - destruct (convert_param_no_columns _ _ _ Hnone Hw) as (items' & -> & ?).
    apply IH; [done..|]. apply Exists_cons in Hex as [Hc|?]; [|done].
    unfold DAGBuilder.convert_param in Hw. rewrite Hc in Hw. simpl in Hw.
    by rewrite Hnone in Hw.
  - unfold DAGBuilder.convert_param in Hw.
    destruct p as [| | | | |?|d]; try done. simpl in Hw.
    destruct (dict_has d "column"); simpl in Hw.
    + rewrite Hnone in Hw. simpl in Hw. congruence.
    + destruct (dict_has d "value") eqn:Hv; simpl in Hw; [|done].
      unfold dict_has in Hv. by destruct (dict_get d "value").
Qed.

(** Export of a stored parameter dict without ["columns"] raises. *)
Lemma convert_from_internal_no_columns items :
  dict_get items "columns" = None →
  DAGBuilder._convert_from_internal_parameters (PDict items)
  = Raise (KeyError "columns").
Proof.
  intros H. unfold DAGBuilder._convert_from_internal_parameters. simpl.
  by rewrite H.
Qed.

Lemma to_json_no_columns (g : DiGraph) :
  no_columns g → nodes g ≠ [] →
  DAGBuilder.to_json g = Raise (KeyError "columns").
Proof.
  intros Hnc Hne. unfold DAGBuilder.to_json.
  destruct (nodes g) as [|[n d] ns] eqn:Hns; [done|]. simpl.
  destruct (Hnc n d) as (items & Hd & Hnone).
  { rewrite Hns. apply list_elem_of_here. }
  unfold DAGBuilder.node_to_json. simpl. rewrite Hd.
  by rewrite convert_from_internal_no_columns.
Qed.

(* ===================================================================== *)
(** ** The builder: what every call preserves *)
(* ===================================================================== *)

Lemma store_invariant_empty : store_invariant empty_graph.
Proof.
  split_and!.
  - split_and!; [constructor..|]. by intros u v ?%elem_of_nil.
  - intros x Hx. apply tc_nsteps in Hx as (k & Hk & Hst).
    inv Hst; [lia|]. by match goal with H : edge _ _ _ |- _ =>
      apply elem_of_nil in H end.
  - by intros n d ?%elem_of_nil.
Qed.

Lemma add_node_invariant node_id node_type parameters g :
  store_invariant g →
  store_invariant (DAGBuilder.add_node node_id node_type parameters g).1.
Proof.
  intros (Hwf & Hac & Hnc). unfold DAGBuilder.add_node.
  destruct (get_operation_function node_type); [|done].
  destruct (has_node g node_id) eqn:Hn; [done|].
  destruct (negb _); [done|].
  destruct (DAGBuilder._convert_to_internal_parameters parameters)
    as [internal|e] eqn:Hc; [|done].
  apply has_node_false in Hn. simpl. split_and!.
  - by apply well_formed_add_node.
  - done.
  - unfold no_columns, NX.add_node; simpl.
    rewrite update_node_fresh by done. intros n d.
    rewrite elem_of_app, list_elem_of_singleton. intros [?|[= -> ->]].
    + by apply (Hnc n).
    + simpl. by apply convert_to_internal_no_columns in Hc.
Qed.

Lemma remove_node_invariant node_id g :
  store_invariant g → store_invariant (DAGBuilder.remove_node node_id g).1.
Proof.
  intros (Hwf & Hac & Hnc). unfold DAGBuilder.remove_node.
  destruct (has_node g node_id); [|done]. simpl. split_and!.
  - by apply well_formed_remove_node.
  - eapply acyclic_subgraph; [|done]. apply edge_remove_node.
  - intros n d [_ Hin]%list_elem_of_filter. by apply (Hnc n).
Qed.

Lemma add_edge_invariant source_id target_id g :
  store_invariant g →
  store_invariant (DAGBuilder.add_edge source_id target_id g).1.
Proof.
  intros (Hwf & Hac & Hnc). unfold DAGBuilder.add_edge.
  destruct (negb (has_node g source_id) || negb (has_node g target_id))
    eqn:Hn; [done|].
  apply orb_false_iff in Hn as [Hs%negb_false_iff Ht%negb_false_iff].
  apply has_node_true in Hs, Ht.
  pose proof (well_formed_add_edge g _ _ Hwf Hs Ht) as Hwf'.
  destruct (has_simple_cycles _) eqn:Hcyc; simpl.
  - split_and!.
    + by apply well_formed_remove_edge.
    + eapply acyclic_subgraph; [|done]. intros x y.
      unfold edge at 1; simpl. intros [Hne Hin]%list_elem_of_filter.
      apply (edge_add_edge g) in Hin as [?|[-> ->]]; done.
    + intros n d. simpl. rewrite nodes_add_edge. apply Hnc.
  - split_and!; [done|by apply has_simple_cycles_false|].
    intros n d. rewrite nodes_add_edge. apply Hnc.
Qed.

Lemma remove_edge_invariant source_id target_id g :
  store_invariant g →
  store_invariant (DAGBuilder.remove_edge source_id target_id g).1.
Proof.
  intros (Hwf & Hac & Hnc). unfold DAGBuilder.remove_edge.
  destruct (has_edge g source_id target_id); [|done]. simpl. split_and!.
  - by apply well_formed_remove_edge.
  - eapply acyclic_subgraph; [|done]. apply edge_remove_edge.
  - done.
Qed.

Lemma run_invariant c g :
  store_invariant g → store_invariant (DAGBuilder.run c g).1.
Proof.
  destruct c; simpl; auto using add_node_invariant, remove_node_invariant,
    add_edge_invariant, remove_edge_invariant.
Qed.

Lemma replay_snoc calls c :
  DAGBuilder.replay (calls ++ [c])
  = (DAGBuilder.run c (DAGBuilder.replay calls)).1.
Proof. unfold DAGBuilder.replay. by rewrite foldl_app. Qed.

(** Every graph the store accepts is well formed and acyclic, and its
    stored parameters have no ["columns"]. *)
Lemma accepted_invariant g : DAGBuilder.accepted g → store_invariant g.
Proof.
  intros [calls ->]. induction calls as [|c calls IH] using rev_ind.
  - apply store_invariant_empty.
  - rewrite replay_snoc. by apply run_invariant.
Qed.

(** *** [add_edge], case by case *)

Lemma add_edge_missing source_id target_id g :
  source_id ∉ node_ids g ∨ target_id ∉ node_ids g →
  DAGBuilder.add_edge source_id target_id g
  = (g, Raise DAGBuilder.NodeNotFoundError).
Proof.
  intros H. unfold DAGBuilder.add_edge.
  destruct (negb (has_node g source_id) || negb (has_node g target_id))
    eqn:Hn; [done|].
  apply orb_false_iff in Hn as [Hs%negb_false_iff Ht%negb_false_iff].
  apply has_node_true in Hs, Ht. by destruct H.
Qed.

Lemma add_edge_present source_id target_id g :
  source_id ∈ node_ids g → target_id ∈ node_ids g →
  DAGBuilder.add_edge source_id target_id g
  = if has_simple_cycles (NX.add_edge g source_id target_id)
    then (NX.remove_edge (NX.add_edge g source_id target_id)
                         source_id target_id,
          Raise DAGBuilder.CycleError)
    else (NX.add_edge g source_id target_id, Ok ()).
Proof.
  intros Hs%has_node_true Ht%has_node_true. unfold DAGBuilder.add_edge.
  by rewrite Hs, Ht.
Qed.

Lemma add_edge_closing source_id target_id g :
  well_formed g → acyclic g →
  source_id ∈ node_ids g → target_id ∈ node_ids g →
  rtc (edge g) target_id source_id →
  DAGBuilder.add_edge source_id target_id g
  = (g, Raise DAGBuilder.CycleError).
Proof.
  intros Hwf Hac Hs Ht Hreach. rewrite add_edge_present by done.
  assert (has_simple_cycles (NX.add_edge g source_id target_id) = true) as ->.
  { apply has_simple_cycles_true; [by apply well_formed_add_edge|].
    by apply cycle_after_add_edge. }
  rewrite remove_add_edge; [done|].
  intros Hst. apply (Hac source_id). eapply tc_rtc_r; [by apply tc_once|done].
Qed.

Lemma add_edge_safe source_id target_id g :
  well_formed g → acyclic g →
  source_id ∈ node_ids g → target_id ∈ node_ids g →
  ¬ rtc (edge g) target_id source_id →
  DAGBuilder.add_edge source_id target_id g
  = (NX.add_edge g source_id target_id, Ok ()).
Proof.
  intros Hwf Hac Hs Ht Hreach. rewrite add_edge_present by done.
  assert (has_simple_cycles (NX.add_edge g source_id target_id) = false) as ->;
    [|done].
  apply has_simple_cycles_false; [by apply well_formed_add_edge|].
  intros x Hx. apply Hreach, cycle_after_add_edge; eauto.
Qed.

(* ===================================================================== *)
(** ** The resolver: Kahn's loop *)
(* ===================================================================== *)

Section filter_facts.
Context {A : Type}.

Lemma filter_ext_elem (P Q : A → Prop) `{∀ x, Decision (P x)}
  `{∀ x, Decision (Q x)} (l : list A) :
  (∀ x, x ∈ l → P x ↔ Q x) → filter P l = filter Q l.
Proof.
  induction l as [|x l IH]; intros Hext; [done|].
  rewrite !filter_cons. rewrite IH.
  - destruct (decide (P x)) as [Hp|Hp], (decide (Q x)) as [Hq|Hq]; try done;
      exfalso; apply (Hext x) in Hp || apply (Hext x) in Hq;
      try done; apply list_elem_of_here.
  - intros y Hy. apply Hext. by apply list_elem_of_further.
Qed.

Lemma filter_length_zero (P : A → Prop) `{∀ x, Decision (P x)} (l : list A) :
  length (filter P l) = 0 ↔ ∀ x, x ∈ l → ¬ P x.
Proof.
  split.
  - intros Hnil%nil_length_inv x Hx Hp.
    by apply (filter_nil_not_elem_of P l x).
  - intros Hall. induction l as [|x l IH]; [done|].
    rewrite filter_cons_False.
    + apply IH. intros y Hy. apply Hall. by apply list_elem_of_further.
    + apply Hall, list_elem_of_here.
Qed.

End filter_facts.

Section pending_facts.
Context (g : DiGraph).

Lemma pending_zero done v :
  pending g done v = 0 ↔ ∀ u, edge g u v → u ∈ done.
Proof.
  unfold pending. rewrite filter_length_zero. split.
  - intros Hall u Huv. destruct (decide (u ∈ done)) as [|Hn]; [done|].
    destruct (Hall (u, v) Huv). done.
  - intros Hall [u w] Hin [Hw Hu]. simpl in *. subst. by apply Hu, Hall.
Qed.

Lemma placed_count (es : list (string * string)) done n v :
  NoDup es → n ∉ done →
  length (filter (λ e, e.2 = v ∧ e.1 ∉ done ++ [n]) es)
  + (if decide ((n, v) ∈ es) then 1 else 0)
  = length (filter (λ e, e.2 = v ∧ e.1 ∉ done) es).
Proof.
  induction es as [|[a b] es IH]; intros Hnd Hn.
  - by rewrite decide_False by apply not_elem_of_nil.
  - apply NoDup_cons in Hnd as [Hab Hnd]. specialize (IH Hnd Hn).
    rewrite !filter_cons. simpl.
    destruct (decide ((n, v) ∈ es)) as [Hin|Hnin].
    + destruct (decide ((n, v) ∈ (a, b) :: es)) as [_|Hc];
        [|by destruct Hc; apply list_elem_of_further].
      assert ((a, b) ≠ (n, v)) as Hne by (by intros [= -> ->]).
      destruct (decide (b = v ∧ a ∉ done ++ [n])) as [[Hb Ha]|Hp1],
        (decide (b = v ∧ a ∉ done)) as [[? Ha']|Hp2]; simpl; try lia.
      * destruct Hp2. split; [done|]. intros ?. apply Ha.
        apply elem_of_app. by left.
      * subst. destruct Hp1. split; [done|].
        rewrite elem_of_app, list_elem_of_singleton. intros [? | ->]; done.
    + destruct (decide ((n, v) ∈ (a, b) :: es)) as [Hh|Hh].
      * apply elem_of_cons in Hh as [[= <- <-]|?]; [|done].
        rewrite decide_False.
        2:{ intros [_ Hx]. apply Hx, elem_of_app. right.
            apply list_elem_of_here. }
        rewrite decide_True by done. simpl. lia.
      * assert ((a, b) ≠ (n, v)) as Hne.
        { intros [= -> ->]. apply Hh, list_elem_of_here. }
        destruct (decide (b = v ∧ a ∉ done ++ [n])) as [[Hb Ha]|Hp1],
          (decide (b = v ∧ a ∉ done)) as [[? Ha']|Hp2]; simpl; try lia.
        -- destruct Hp2. split; [done|]. intros ?. apply Ha.
           apply elem_of_app. by left.
        -- subst. destruct Hp1. split; [done|].
           rewrite elem_of_app, list_elem_of_singleton.
           intros [? | ->]; done.
Qed.

(** Placing [n] takes one off the count of each of its successors, and
    leaves every other count as it was. *)
Lemma pending_placed done n v :
  NoDup (edges g) → n ∉ done →
  pending g (done ++ [n]) v + (if decide (edge g n v) then 1 else 0)
  = pending g done v.
Proof.
  intros Hnd Hn. unfold pending. rewrite <-(placed_count _ done n v Hnd Hn).
  reflexivity.
Qed.

Lemma in_degree_pending v : in_degree g v = Z.of_nat (pending g [] v).
Proof.
  unfold in_degree, pending. do 2 f_equal. apply list_filter_iff.
  intros [a b]; simpl. split; [|by intros [? _]].
  intros ->. split; [done|]. apply not_elem_of_nil.
Qed.

End pending_facts.

Lemma foldM_cons {A B} (f : A → B → result A) acc x xs :
  foldM f acc (x :: xs) = f acc x ≫= λ acc', foldM f acc' xs.
Proof. done. Qed.

Lemma bind_Ok {A B} (f : A → result B) a : Ok a ≫= f = f a.
Proof. done. Qed.

(** The [for successor] loop over distinct successors that all have a
    counter: each counter goes down by one, and the successors whose
    counter was one join the queue, in order. *)
Lemma foldM_relax (ss : list string) : ∀ (m : gmap string Z) (q : list string),
  NoDup ss → (∀ s, s ∈ ss → is_Some (m !! s)) →
  ∃ m', foldM DependencyResolver.relax (m, q) ss
        = Ok (m', q ++ filter (λ s, m !! s = Some 1%Z) ss) ∧
    ∀ v, m' !! v
         = if decide (v ∈ ss) then (λ d, (d - 1)%Z) <$> m !! v else m !! v.
Proof.
  induction ss as [|s ss IH]; intros m q Hnd Hkeys.
  - exists m. split; [by rewrite app_nil_r|].
    intros v. by rewrite decide_False by apply not_elem_of_nil.
  - apply NoDup_cons in Hnd as [Hs Hnd].
    destruct (Hkeys s) as [d Hd]; [apply list_elem_of_here|].
    set (m1 := <[s := (d - 1)%Z]> m).
    set (q1 := if decide (d - 1 = 0)%Z then q ++ [s] else q).
    destruct (IH m1 q1 Hnd) as (m' & Hfold & Hm').
    { intros s' Hs'. unfold m1. rewrite lookup_insert_ne by (by intros ->).
      by apply Hkeys, list_elem_of_further. }
    exists m'. split.
    + assert (DependencyResolver.relax (m, q) s = Ok (m1, q1)) as Hstep.
      { unfold DependencyResolver.relax, m1, q1. simpl. rewrite Hd.
        by destruct (decide _). }
      rewrite foldM_cons, Hstep, bind_Ok, Hfold. do 2 f_equal.
      rewrite (filter_ext_elem (λ s0 : string, m1 !! s0 = Some 1%Z)
                               (λ s0 : string, m !! s0 = Some 1%Z)).
      2:{ intros x Hx. unfold m1.
          by rewrite lookup_insert_ne by (by intros ->). }
      rewrite filter_cons, Hd. unfold q1.
      destruct (decide (d - 1 = 0)%Z) as [Hz|Hz].
      * rewrite decide_True by (f_equal; lia). by rewrite <-app_assoc.
      * rewrite decide_False; [done|]. intros [= ->]. by apply Hz.
    + intros v. rewrite Hm'. unfold m1.
      destruct (decide (v = s)) as [->|Hne].
      * rewrite decide_False by done. rewrite lookup_insert_eq, Hd.
        by rewrite decide_True by apply list_elem_of_here.
      * rewrite lookup_insert_ne by done.
        destruct (decide (v ∈ ss)) as [Hin|Hnin].
        -- by rewrite decide_True by (by apply list_elem_of_further).
        -- rewrite decide_False; [done|].
           by intros [?|?]%elem_of_cons.
Qed.

Section kahn.
Context (g : DiGraph) (Hwf : well_formed g).

Lemma before_snoc u v l x : before u v l → before u v (l ++ [x]).
Proof.
  intros (i & j & Hi & Hj & Hij). exists i, j.
  split_and!; [| |done]; by apply lookup_app_l_Some.
Qed.

Lemma before_last u l x : u ∈ l → before u x (l ++ [x]).
Proof.
  intros [i Hi]%list_elem_of_lookup. exists i, (length l).
  split_and!.
  - by apply lookup_app_l_Some.
  - by apply list_lookup_middle.
  - by eapply lookup_lt_Some.
Qed.

(** One round of the [while] loop keeps the invariant. *)
Lemma kahn_step queue visited indegree_map execution_plan n q :
  let st := DependencyResolver.State queue visited indegree_map
                                     execution_plan in
  kahn_invariant g st → queue = n :: q →
  ∃ data m' q',
    lookup_node (nodes g) n = Some data ∧
    foldM DependencyResolver.relax (indegree_map, q) (successors g n)
    = Ok (m', q') ∧
    kahn_invariant g
      (DependencyResolver.State q' ({[n]} ∪ visited) m'
                                (execution_plan ++ [(data, n)])).
Proof.
  intros st (Hnd & Hsub & Hdeg & Hzero & Hvis & Hbef & Hplan) ->.
  unfold placed in *. simpl in *.
  set (done := DependencyResolver.node_of <$> execution_plan) in *.
  destruct Hwf as (HV & HE & Hends).
  assert (n ∈ node_ids g) as Hn.
  { apply Hsub, elem_of_app. right. apply list_elem_of_here. }
  destruct (lookup_node_Some (nodes g) n Hn) as (data & Hdata & Hindata).
  assert (n ∉ done) as Hnotdone.
  { apply NoDup_app in Hnd as (_ & Hdis & _). intros Hin.
    apply (Hdis n Hin), list_elem_of_here. }
  pose proof (λ v, pending_placed g done n v HE Hnotdone) as Hpend.
  destruct (foldM_relax (successors g n) indegree_map q) as (m' & Hfold & Hm').
  { by apply NoDup_successors. }
  { intros s Hs%elem_of_successors. rewrite Hdeg; [done|].
    by apply (Hends n s). }
  set (new := filter (λ s, indegree_map !! s = Some 1%Z) (successors g n))
    in *.
  assert (∀ s, s ∈ new ↔ edge g n s ∧ pending g done s = 1) as Hnew.
  { intros s. unfold new. rewrite list_elem_of_filter, elem_of_successors.
    split.
    - intros [Hone Hs]. split; [done|]. rewrite Hdeg in Hone.
      + injection Hone. lia.
      + by apply (Hends n s).
    - intros [Hs Hone]. split; [|done]. rewrite Hdeg.
      + by rewrite Hone.
      + by apply (Hends n s). }
  exists data, m', (q ++ new). split_and!; [done..|].
  unfold kahn_invariant, placed. simpl. rewrite fmap_app. simpl.
  fold done.
  assert ((done ++ [n]) ++ q ++ new = (done ++ n :: q) ++ new) as Hshape.
  { by rewrite <-!app_assoc. }
  rewrite Hshape. split_and!.
  - apply NoDup_app. split_and!; [done| |].
    + intros x Hx [Hxs Hone]%Hnew.
      apply Hzero in Hx; [lia|]. by apply (Hends n x).
    + apply NoDup_filter. by apply NoDup_successors.
  - intros x [Hx|[Hx _]%Hnew]%elem_of_app; [by apply Hsub|].
    by apply (Hends n x).
  - intros v Hv. rewrite Hm', (Hdeg v Hv). specialize (Hpend v).
    destruct (decide (v ∈ successors g n)) as [Hs|Hs];
      rewrite elem_of_successors in Hs.
    + rewrite decide_True in Hpend by done. simpl. f_equal. lia.
    + rewrite decide_False in Hpend by done. f_equal. lia.
  - intros v Hv. specialize (Hpend v). rewrite elem_of_app. split.
    + intros [Hold|[Hs Hone]%Hnew].
      * apply Hzero in Hold; [lia|done].
      * rewrite decide_True in Hpend by done. lia.
    + intros Hz. destruct (decide (edge g n v)) as [He|He].
      * right. apply Hnew. split; [done|lia].
      * left. apply Hzero; [done|lia].
  - rewrite list_to_set_app_L, Hvis. simpl. set_solver.
  - intros u v Huv [Hv | ->%list_elem_of_singleton]%elem_of_app.
    + by apply before_snoc, Hbef.
    + apply before_last. apply (pending_zero g done n); [|done].
      apply Hzero; [done|]. apply elem_of_app. right. apply list_elem_of_here.
  - intros op [Hop | ->%list_elem_of_singleton]%elem_of_app; [by apply Hplan|].
    done.
Qed.

End kahn.

Lemma tc_flip {A} (R : relation A) x y : tc (flip R) x y → tc R y x.
Proof.
  induction 1 as [x y Hxy|x z y Hxz _ IH]; [by apply tc_once|].
  by eapply tc_r.
Qed.

Section kahn_loop.
Context (g : DiGraph) (Hwf : well_formed g).

(** In a finite acyclic graph, going back along edges comes to an end. *)
Lemma predecessors_well_founded : acyclic g → ∀ v, Acc (edge g) v.
Proof.
  intros Hac v. apply (tc_finite_sn (R := flip (edge g))).
  - intros x Hx%tc_flip. by apply (Hac x).
  - exists (node_ids g). intros y Hy%tc_flip.
    destruct Hwf as (_ & _ & Hends).
    apply tc_nsteps in Hy as (k & Hk & Hst). inv Hst; [lia|].
    eapply proj1, Hends. eassumption.
Qed.

(** With the queue empty, an acyclic graph has every node placed: a node
    left over would have a predecessor left over, without end. *)
Lemma kahn_complete done :
  acyclic g →
  (∀ v, v ∈ node_ids g → v ∈ done ↔ pending g done v = 0) →
  ∀ v, v ∈ node_ids g → v ∈ done.
Proof.
  intros Hac Hzero v.
  induction (predecessors_well_founded Hac v) as [v _ IH]. intros Hv.
  apply Hzero; [done|]. apply pending_zero. intros u Huv.
  apply IH; [done|]. destruct Hwf as (_ & _ & Hends).
  by apply (Hends u v).
Qed.

Lemma placed_bound st :
  kahn_invariant g st → length (placed st) ≤ length (nodes g).
Proof.
  intros (Hnd & Hsub & _). apply NoDup_app in Hnd as (Hnd & _ & _).
  replace (length (nodes g)) with (length (node_ids g))
    by (unfold node_ids; apply length_fmap).
  apply submseteq_length, NoDup_submseteq; [done|].
  intros x Hx. apply Hsub, elem_of_app. by left.
Qed.

(** The loop ends, with the invariant, within one test per node and one
    more. *)
Lemma while_queue_enough fuel : ∀ st,
  kahn_invariant g st → length (nodes g) < fuel + length (placed st) →
  ∃ st', DependencyResolver.while_queue fuel g st = Some (Ok st') ∧
         kahn_invariant g st' ∧ DependencyResolver.queue st' = [].
Proof.
  induction fuel as [|fuel IH]; intros [queue visited m plan] Hinv Hfuel.
  - apply placed_bound in Hinv. lia.
  - simpl. destruct queue as [|n q]; [by eauto|].
    destruct (kahn_step g Hwf _ _ _ _ n q Hinv eq_refl)
      as (data & m' & q' & Hdata & Hfold & Hinv').
    rewrite Hdata, Hfold. apply IH; [done|].
    unfold placed in *. simpl in *. rewrite fmap_app, length_app. simpl. lia.
Qed.

Lemma initial_invariant :
  kahn_invariant g (DependencyResolver.initial_state g).
Proof.
  destruct Hwf as (HV & HE & Hends).
  assert (∀ v, v ∈ node_ids g →
    (list_to_map ((λ node, (node, in_degree g node)) <$> node_ids g)
       : gmap string Z) !! v = Some (Z.of_nat (pending g [] v))) as Hdeg.
  { intros v Hv. rewrite <-in_degree_pending.
    apply elem_of_list_to_map_1.
    - rewrite <-list_fmap_compose. by rewrite (list_fmap_ext _ id), list_fmap_id.
    - apply list_elem_of_fmap. by exists v. }
  unfold kahn_invariant, DependencyResolver.initial_state, placed. simpl.
  split_and!.
  - by apply NoDup_filter.
  - by intros x [_ ?]%list_elem_of_filter.
  - done.
  - intros v Hv. rewrite list_elem_of_filter, (Hdeg v Hv). split.
    + intros [[= Hz] _]. lia.
    + intros ->. done.
  - done.
  - by intros u v _ ?%elem_of_nil.
  - by intros op ?%elem_of_nil.
Qed.

(** The resolver on a well-formed acyclic graph: with one unit of fuel
    per node and one more it returns a plan that holds each node once,
    every edge pointing forward, each entry carrying its node's data. *)
Lemma resolve_dependencies_sound fuel :
  acyclic g → length (nodes g) < fuel →
  ∃ plan,
    DependencyResolver.resolve_dependencies fuel g = Some (Ok plan) ∧
    DependencyResolver.node_of <$> plan ≡ₚ node_ids g ∧
    (∀ u v, edge g u v → before u v (DependencyResolver.node_of <$> plan)) ∧
    (∀ op, op ∈ plan → (op.2, op.1) ∈ nodes g).
Proof.
  intros Hac Hfuel.
  destruct (while_queue_enough fuel (DependencyResolver.initial_state g))
    as (st & Hrun & Hinv & Hq); [apply initial_invariant|simpl; lia|].
  destruct Hinv as (Hnd & Hsub & Hdeg & Hzero & Hvis & Hbef & Hplan).
  rewrite Hq, app_nil_r in *.
  pose proof (kahn_complete (placed st) Hac Hzero) as Hall.
  assert (placed st ≡ₚ node_ids g) as Hperm.
  { apply NoDup_Permutation; [done|by destruct Hwf|]. by split; auto. }
  exists (DependencyResolver.execution_plan st). split_and!.
  - unfold DependencyResolver.resolve_dependencies. rewrite Hrun, Hvis.
    rewrite size_list_to_set by done. rewrite (Permutation_length Hperm).
    unfold node_ids. rewrite length_fmap. by rewrite decide_False by auto.
  - done.
  - intros u v Huv. apply Hbef; [done|]. apply Hall.
    destruct Hwf as (_ & _ & Hends). by apply (Hends u v).
  - done.
Qed.

End kahn_loop.

(* ===================================================================== *)
(** ** The properties of the specification *)
(* ===================================================================== *)

Lemma scenario_accepted : DAGBuilder.accepted scenario_graph.
Proof. by exists scenario_calls. Qed.

Lemma scenario_well_formed : well_formed scenario_graph.
Proof. apply accepted_invariant, scenario_accepted. Qed.

Lemma scenario_acyclic : acyclic scenario_graph.
Proof. apply accepted_invariant, scenario_accepted. Qed.

(** The scenario resolves to [A] then [B]. *)
Example scenario_plan :
  match DependencyResolver.resolve_dependencies 3 scenario_graph with
  | Some (Ok plan) => Some (DependencyResolver.node_of <$> plan)
  | _ => None
  end = Some ["A"; "B"].
Proof. by vm_compute. Qed.

(** C1. For every graph the store accepts, the resolver (given one unit
    of fuel per node and one more) returns a plan in which every node of
    the graph appears exactly once and, for every edge [(u, v)], [u]
    stands at a strictly smaller position than [v]. *)
Theorem resolved_plan_respects_edges (g : DiGraph) (fuel : nat) :
  DAGBuilder.accepted g → length (nodes g) < fuel →
  ∃ plan,
    DependencyResolver.resolve_dependencies fuel g = Some (Ok plan) ∧
    NoDup (DependencyResolver.node_of <$> plan) ∧
    (∀ n, n ∈ DependencyResolver.node_of <$> plan ↔ n ∈ node_ids g) ∧
    length plan = length (nodes g) ∧
    ∀ u v, (u, v) ∈ edges g →
      before u v (DependencyResolver.node_of <$> plan).
Proof.
  intros (Hwf & Hac & _)%accepted_invariant Hfuel.
  destruct (resolve_dependencies_sound g Hwf fuel Hac Hfuel)
    as (plan & Hrun & Hperm & Hbef & _).
  exists plan. split_and!; [done| | | |done].
  - rewrite Hperm. by destruct Hwf.
  - intros n. by rewrite Hperm.
  - apply Permutation_length in Hperm. unfold node_ids in Hperm.
    by rewrite !length_fmap in Hperm.
Qed.

Lemma resolved_plan_respects_edges_witness :
  ∃ plan,
    DependencyResolver.resolve_dependencies 3 scenario_graph
    = Some (Ok plan) ∧
    NoDup (DependencyResolver.node_of <$> plan) ∧
    (∀ n, n ∈ DependencyResolver.node_of <$> plan
          ↔ n ∈ node_ids scenario_graph) ∧
    length plan = length (nodes scenario_graph) ∧
    ∀ u v, (u, v) ∈ edges scenario_graph →
      before u v (DependencyResolver.node_of <$> plan).
Proof.
  apply (resolved_plan_respects_edges scenario_graph 3).
  - exists scenario_calls. reflexivity.
  - vm_compute. lia.
Defined.

(** C2. On a graph of the store (well formed, acyclic) and two existing
    nodes, when the graph with the edge [source -> target] added has a
    cycle, [add_edge] raises [CycleError] and leaves the graph, nodes and
    edges, exactly as it was. *)
Theorem add_edge_cycle_is_atomic (g : DiGraph) (source_id target_id : string) :
  well_formed g → acyclic g →
  source_id ∈ node_ids g → target_id ∈ node_ids g →
  (∃ x, tc (edge (NX.add_edge g source_id target_id)) x x) →
  DAGBuilder.add_edge source_id target_id g
  = (g, Raise DAGBuilder.CycleError).
Proof.
  intros Hwf Hac Hs Ht Hcyc. apply add_edge_closing; [done..|].
  by apply cycle_after_add_edge.
Qed.

Lemma add_edge_cycle_is_atomic_witness :
  DAGBuilder.add_edge "B" "A" scenario_graph
  = (scenario_graph, Raise DAGBuilder.CycleError).
Proof.
  apply (add_edge_cycle_is_atomic scenario_graph "B" "A").
  - apply scenario_well_formed.
  - apply scenario_acyclic.
  - vm_compute. apply list_elem_of_further, list_elem_of_here.
  - vm_compute. apply list_elem_of_here.
  - exists "A". apply tc_l with "B"; [|apply tc_once];
      vm_compute; [apply list_elem_of_here|].
    apply list_elem_of_further, list_elem_of_here.
Defined.

(** C5. On a graph of the store (well formed, acyclic), [add_edge] raises
    [NodeNotFoundError] when an endpoint is not a node; with both
    endpoints present it raises [CycleError] exactly when the target
    already reaches the source, which is exactly when a depth-first
    search from the target finds the source (or they are the same node);
    otherwise it succeeds, keeps the nodes, and the edges become the old
    ones and [source -> target]. *)
Theorem add_edge_outcomes (g : DiGraph) (source_id target_id : string) :
  well_formed g → acyclic g →
  (source_id ∉ node_ids g ∨ target_id ∉ node_ids g →
     DAGBuilder.add_edge source_id target_id g
     = (g, Raise DAGBuilder.NodeNotFoundError)) ∧
  (source_id ∈ node_ids g → target_id ∈ node_ids g →
     ((DAGBuilder.add_edge source_id target_id g).2
        = Raise DAGBuilder.CycleError
      ↔ rtc (edge g) target_id source_id) ∧
     (rtc (edge g) target_id source_id
      ↔ target_id = source_id
        ∨ reach_within g (length (nodes g)) target_id source_id = true) ∧
     (¬ rtc (edge g) target_id source_id →
        (DAGBuilder.add_edge source_id target_id g).2 = Ok () ∧
        nodes (DAGBuilder.add_edge source_id target_id g).1 = nodes g ∧
        ∀ x y, edge (DAGBuilder.add_edge source_id target_id g).1 x y
               ↔ edge g x y ∨ (x = source_id ∧ y = target_id))).
Proof.
  intros Hwf Hac. split; [apply add_edge_missing|]. intros Hs Ht.
  split_and!.
  - split.
    + rewrite add_edge_present by done.
      destruct (has_simple_cycles _) eqn:Hcyc; [|done]. intros _.
      apply has_simple_cycles_true in Hcyc;
        [|by apply well_formed_add_edge].
      by apply cycle_after_add_edge.
    + intros Hreach. by rewrite add_edge_closing.
  - by apply rtc_reach_within.
  - intros Hsafe. rewrite add_edge_safe by done. simpl.
    split_and!; [done|apply nodes_add_edge|apply edge_add_edge].
Qed.

Lemma add_edge_outcomes_witness :
  DAGBuilder.add_edge "A" "Z" scenario_graph
  = (scenario_graph, Raise DAGBuilder.NodeNotFoundError) ∧
  (DAGBuilder.add_edge "B" "A" scenario_graph).2
  = Raise DAGBuilder.CycleError ∧
  (DAGBuilder.add_edge "A" "B" scenario_graph).2 = Ok ().
Proof.
  pose proof scenario_well_formed as Hwf.
  pose proof scenario_acyclic as Hac.
  assert ("A" ∈ node_ids scenario_graph) as HA
    by (vm_compute; apply list_elem_of_here).
  assert ("B" ∈ node_ids scenario_graph) as HB
    by (vm_compute; apply list_elem_of_further, list_elem_of_here).
  split_and!.
  - apply (add_edge_outcomes scenario_graph "A" "Z" Hwf Hac). right.
    vm_compute. intros H. by repeat (apply elem_of_cons in H as [?|H]);
      try apply elem_of_nil in H.
  - destruct (add_edge_outcomes scenario_graph "B" "A" Hwf Hac) as [_ H].
    destruct (H HB HA) as (Hiff & _ & _). apply Hiff.
    apply rtc_once. vm_compute. apply list_elem_of_here.
  - destruct (add_edge_outcomes scenario_graph "A" "B" Hwf Hac) as [_ H].
    destruct (H HA HB) as (_ & _ & Hsafe). apply Hsafe.
    intros [?|(y & Hy & _)]%rtc_inv; [done|].
    vm_compute in Hy. apply elem_of_cons in Hy as [?|Hy]; [done|].
    by apply elem_of_nil in Hy.
Defined.

(** *** Parameters at construction and at execution *)

Lemma missing_params_dict required items :
  DependencyResolver.missing_params required (PDict items)
  = Ok (filter (λ p, dict_has items p = false) required).
Proof.
  induction required as [|p required IH]; [done|]. simpl. rewrite IH. simpl.
  rewrite filter_cons. by destruct (dict_has items p).
Qed.

Lemma execute_node_dict invoke node_id node_type op required items :
  function_registry !! node_type = Some (op, required) →
  DependencyResolver.execute_node invoke (NodeData node_type (PDict items))
                                  node_id
  = match filter (λ p, dict_has items p = false) required with
    | [] => invoke op (PDict items) ≫= λ _, Ok ()
    | missing =>
        Raise (DependencyResolver.MissingParameterError node_id node_type
                                                        missing)
    end.
Proof.
  intros Hreg. unfold DependencyResolver.execute_node,
    get_operation_function. simpl. rewrite Hreg. simpl.
  rewrite missing_params_dict. simpl. by destruct (filter _ _).
Qed.

(** Entries that are dicts without the key ["column"] convert. *)
Lemma foldM_convert_plain entries : ∀ items,
  Forall (λ p, ∃ d, p = PDict d ∧ dict_has d "column" = false) entries →
  ∃ items', foldM DAGBuilder.convert_param (PDict items) entries
            = Ok (PDict items').
Proof.
  induction entries as [|p entries IH]; intros items Hall; [by eexists|].
  apply Forall_cons in Hall as [(d & -> & Hd) Hall].
  assert (∃ items1, DAGBuilder.convert_param (PDict items) (PDict d)
                    = Ok (PDict items1)) as [items1 Hstep].
  { unfold DAGBuilder.convert_param, contains. rewrite Hd.
    unfold dict_has, getitem. destruct (dict_get d "value"); by eexists. }
  rewrite foldM_cons, Hstep, bind_Ok. by apply IH.
Qed.

Lemma add_node_other_kind node_id node_type parameters g :
  node_type ≠ "ADD" → is_Some (function_registry !! node_type) →
  node_id ∉ node_ids g →
  DAGBuilder.add_node node_id node_type parameters g
  = match DAGBuilder._convert_to_internal_parameters parameters with
    | Ok internal =>
        (NX.add_node g node_id (NodeData node_type internal), Ok ())
    | Raise e => (g, Raise e)
    end.
Proof.
  intros Hty [entry Hreg] Hfresh%has_node_false.
  unfold DAGBuilder.add_node, get_operation_function,
    DAGBuilder._validate_parameters.
  rewrite Hreg, Hfresh. by destruct (String.eqb_spec node_type "ADD").
Qed.

(** C3. The scenario call: node [C] of kind ADD with parameters
    [[{"column": "x"}, {"value": 5}]].  Whatever graph the builder holds,
    the call raises and stores nothing: the conversion reads the key
    ["columns"] of a dict created with the key ["sources"]. *)
Theorem add_node_with_column_raises (g : DiGraph) :
  DAGBuilder.add_node "C" "ADD"
    (PList [PDict [("column", PStr "x")]; PDict [("value", PInt 5)]]) g
  = (g, Raise (if has_node g "C" then DAGBuilder.DuplicateNodeError "C"
               else KeyError "columns")).
Proof.
  unfold DAGBuilder.add_node. replace (get_operation_function "ADD")
    with (Ok (add_operation, ["columns"; "value"])) by (by vm_compute).
  by destruct (has_node g "C").
Qed.

(** C4, as the code has it.  For a registered kind: [add_node] does not
    look at the required parameter names (for a kind other than ADD, a
    fresh id and entries that are dicts without the key ["column"] are
    stored, whichever names they lack); the names are checked by
    [execute_node], which raises the missing-parameter error listing
    exactly the required names absent from the node's parameter dict, in
    the registry's order, and does not invoke the operation. *)
Theorem required_parameters_checked_at_execution
  (g : DiGraph) (node_id node_type : string) (op : operation)
  (required : list string) (entries : list value)
  (invoke : operation → value → result value)
  (items : list (string * value)) :
  function_registry !! node_type = Some (op, required) →
  (node_type ≠ "ADD" → node_id ∉ node_ids g →
   Forall (λ p, ∃ d, p = PDict d ∧ dict_has d "column" = false) entries →
   ∃ internal,
     DAGBuilder.add_node node_id node_type (PList entries) g
     = (NX.add_node g node_id (NodeData node_type internal), Ok ())) ∧
  (filter (λ p, dict_has items p = false) required ≠ [] →
   DependencyResolver.execute_node invoke
     (NodeData node_type (PDict items)) node_id
   = Raise (DependencyResolver.MissingParameterError node_id node_type
              (filter (λ p, dict_has items p = false) required))).
Proof.
  intros Hreg. split.
  - intros Hty Hfresh Hall. rewrite add_node_other_kind by eauto.
    unfold DAGBuilder._convert_to_internal_parameters. simpl.
    destruct (foldM_convert_plain entries [("sources", PList [])] Hall)
      as [items' ->]. eauto.
  - intros Hmiss. rewrite (execute_node_dict _ _ _ op required) by done.
    by destruct (filter _ _).
Qed.

Lemma required_parameters_checked_at_execution_witness :
  (∃ internal,
     DAGBuilder.add_node "n" "SMA" (PList [PDict [("window_size", PInt 5)]])
                         empty_graph
     = (NX.add_node empty_graph "n" (NodeData "SMA" internal), Ok ())) ∧
  DependencyResolver.execute_node (λ _ _, Ok PNone)
    (NodeData "SMA" (PDict [("sources", PList []); ("column", PStr "c")]))
    "n"
  = Raise (DependencyResolver.MissingParameterError "n" "SMA"
             ["window_size"]).
Proof.
  destruct (required_parameters_checked_at_execution empty_graph "n" "SMA"
    sma_operation ["window_size"; "column"]
    [PDict [("window_size", PInt 5)]] (λ _ _, Ok PNone)
    [("sources", PList []); ("column", PStr "c")]) as [Hadd Hexec].
  - vm_compute. reflexivity.
  - split.
    + apply Hadd; [done|apply not_elem_of_nil|].
      apply Forall_cons. split; [by eexists|apply Forall_nil_2].
    + apply Hexec. vm_compute. discriminate.
Defined.

(** C4, as stated, fails: kind SMA is registered with two required
    parameters, the empty parameter list has neither, and [add_node]
    stores the node instead of raising. *)
Lemma add_node_stores_without_required :
  function_registry !! "SMA" = Some (sma_operation, ["window_size"; "column"]) ∧
  DAGBuilder.add_node "n" "SMA" (PList []) empty_graph
  = (Graph [("n", NodeData "SMA" (PDict [("sources", PList [])]))] [],
     Ok ()) ∧
  ¬ ∃ missing,
      DAGBuilder.add_node "n" "SMA" (PList []) empty_graph
      = (empty_graph,
         Raise (DependencyResolver.MissingParameterError "n" "SMA" missing)).
Proof.
  split_and!; [by vm_compute..|]. by intros [missing H].
Qed.

(** C6. The round trip stops at its first half: saving the scenario
    graph, which the store accepts, raises [KeyError('columns')], so no
    document exists to load back.  Only the graph without nodes makes the
    trip: its document loads into the empty graph again. *)
Theorem save_scenario_raises :
  DAGBuilder.accepted scenario_graph ∧
  DAGBuilder.save_to_file scenario_graph = Raise (KeyError "columns") ∧
  ∃ document,
    DAGBuilder.save_to_file empty_graph = Ok document ∧
    DAGBuilder.load_from_file document scenario_graph = (empty_graph, Ok ()).
Proof.
  split_and!; [apply scenario_accepted|by vm_compute|].
  eexists. split; by vm_compute.
Qed.

(** C8. A call of [add_node] that raises, for whatever reason, leaves the
    graph exactly as it was, and each of the reasons does make it raise:
    a kind the registry does not have fails with the unknown-kind error,
    whatever the id and the parameters; for a registered kind, an id the
    graph already has, then parameters that do not validate, then a
    conversion that raises, each fail with their own exception. *)
Theorem add_node_failure_is_atomic (g : DiGraph) (node_id node_type : string)
  (parameters : value) :
  (∀ e, (DAGBuilder.add_node node_id node_type parameters g).2 = Raise e →
        (DAGBuilder.add_node node_id node_type parameters g).1 = g) ∧
  (function_registry !! node_type = None →
   DAGBuilder.add_node node_id node_type parameters g
   = (g, Raise (DAGBuilder.UnknownKindError node_type))) ∧
  (is_Some (function_registry !! node_type) →
   (node_id ∈ node_ids g →
    DAGBuilder.add_node node_id node_type parameters g
    = (g, Raise (DAGBuilder.DuplicateNodeError node_id))) ∧
   (node_id ∉ node_ids g →
    DAGBuilder._validate_parameters node_type parameters = false →
    DAGBuilder.add_node node_id node_type parameters g
    = (g, Raise (DAGBuilder.InvalidParametersError node_type))) ∧
   (node_id ∉ node_ids g →
    DAGBuilder._validate_parameters node_type parameters = true →
    ∀ e, DAGBuilder._convert_to_internal_parameters parameters = Raise e →
         DAGBuilder.add_node node_id node_type parameters g = (g, Raise e))).
Proof.
  unfold DAGBuilder.add_node, get_operation_function.
  destruct (function_registry !! node_type) as [entry|] eqn:Hkind; simpl.
  - destruct (has_node g node_id) eqn:Hid.
    + apply has_node_true in Hid.
      split_and!; [done|done|]. intros _.
      split_and!; [done|by intros []..].
    + apply has_node_false in Hid.
      split_and!; [|done|].
      * destruct (negb _); [done|].
        by destruct (DAGBuilder._convert_to_internal_parameters parameters).
      * intros _. split_and!; [by intros ?| |].
        -- by intros _ ->.
        -- by intros _ -> e ->.
  - split_and!; [done|done|]. by intros [? [=]].
Qed.

Lemma add_node_failure_is_atomic_witness :
  DAGBuilder.add_node "3" "UNSUPPORTED_TYPE"
    (PList [PDict [("param", PStr "value")]]) scenario_graph
  = (scenario_graph,
     Raise (ValueError "Unsupported node type: UNSUPPORTED_TYPE. Error: Unsupported node type: UNSUPPORTED_TYPE")).
Proof.
  apply (proj1 (proj2 (add_node_failure_is_atomic scenario_graph "3"
           "UNSUPPORTED_TYPE" (PList [PDict [("param", PStr "value")]])))).
  vm_compute. reflexivity.
Defined.

(** C9. In every graph the store accepts, each stored node carries a
    parameter dict without the key ["columns"], and as soon as the graph
    has a node, [to_json] raises [KeyError('columns')] instead of
    returning a document. *)
Theorem export_raises_on_stored_nodes (g : DiGraph) :
  DAGBuilder.accepted g →
  no_columns g ∧
  (nodes g ≠ [] → DAGBuilder.to_json g = Raise (KeyError "columns")).
Proof.
  intros (_ & _ & Hnc)%accepted_invariant. split; [done|].
  by apply to_json_no_columns.
Qed.

Lemma export_raises_on_stored_nodes_witness :
  no_columns scenario_graph ∧
  DAGBuilder.to_json scenario_graph = Raise (KeyError "columns").
Proof.
  destruct (export_raises_on_stored_nodes scenario_graph) as [Hnc Hraise].
  - exists scenario_calls. reflexivity.
  - split; [done|]. apply Hraise. vm_compute. discriminate.
Defined.

(** C10. For every kind other than ADD and every parameters value,
    [_validate_parameters] returns true, and what [add_node] does with a
    registered kind and a fresh id is decided by the conversion alone;
    the required names of the kind are compared with the parameters only
    by [execute_node]. *)
Theorem validation_only_for_ADD (node_type : string) (parameters : value) :
  node_type ≠ "ADD" →
  DAGBuilder._validate_parameters node_type parameters = true ∧
  (∀ g node_id,
     is_Some (function_registry !! node_type) → node_id ∉ node_ids g →
     DAGBuilder.add_node node_id node_type parameters g
     = match DAGBuilder._convert_to_internal_parameters parameters with
       | Ok internal =>
           (NX.add_node g node_id (NodeData node_type internal), Ok ())
       | Raise e => (g, Raise e)
       end) ∧
  (∀ invoke node_id op required items,
     function_registry !! node_type = Some (op, required) →
     DependencyResolver.execute_node invoke
       (NodeData node_type (PDict items)) node_id
     = match filter (λ p, dict_has items p = false) required with
       | [] => invoke op (PDict items) ≫= λ _, Ok ()
       | missing =>
           Raise (DependencyResolver.MissingParameterError node_id node_type
                                                           missing)
       end).
Proof.
  intros Hty. split_and!.
  - unfold DAGBuilder._validate_parameters.
    by destruct (String.eqb_spec node_type "ADD").
  - intros g node_id Hreg Hfresh. by apply add_node_other_kind.
  - intros invoke node_id op required items Hreg. by apply execute_node_dict.
Qed.

Lemma validation_only_for_ADD_witness :
  DAGBuilder._validate_parameters "SMA" (PInt 3) = true ∧
  DAGBuilder.add_node "n" "ADX" (PList []) empty_graph
  = (Graph [("n", NodeData "ADX" (PDict [("sources", PList [])]))] [],
     Ok ()) ∧
  DependencyResolver.execute_node (λ _ _, Ok PNone)
    (NodeData "ADX" (PDict [("sources", PList [])])) "n"
  = Raise (DependencyResolver.MissingParameterError "n" "ADX"
             ["high"; "low"; "close"; "time_period"]).
Proof.
  split_and!.
  - apply (validation_only_for_ADD "SMA" (PInt 3)). discriminate.
  - destruct (validation_only_for_ADD "ADX" (PList [])) as (_ & Hadd & _);
      [discriminate|].
    rewrite Hadd; [reflexivity|vm_compute; eauto|apply not_elem_of_nil].
  - destruct (validation_only_for_ADD "ADX" (PList [])) as (_ & _ & Hexec);
      [discriminate|].
    by rewrite (Hexec _ _ adx_operation ["high"; "low"; "close"; "time_period"]).
Defined.

(* ===================================================================== *)
(** ** Further properties of the store and the resolver *)
(* ===================================================================== *)

(** Whatever calls are made, failed ones included, the graph of the
    builder is well formed and acyclic. *)
Theorem store_stays_acyclic (calls : list DAGBuilder.call) :
  well_formed (DAGBuilder.replay calls) ∧ acyclic (DAGBuilder.replay calls).
Proof.
  destruct (accepted_invariant (DAGBuilder.replay calls)) as (? & ? & _);
    [by exists calls|done].
Qed.

(** [remove_node] never raises; on a well-formed graph the node is gone
    afterwards together with the edges that touched it and nothing else,
    and removing an absent node changes nothing. *)
Theorem remove_node_outcome (g : DiGraph) (node_id : string) :
  well_formed g →
  (DAGBuilder.remove_node node_id g).2 = Ok () ∧
  (∀ x, x ∈ node_ids (DAGBuilder.remove_node node_id g).1
        ↔ (x ∈ node_ids g ∧ x ≠ node_id)) ∧
  (∀ x y, edge (DAGBuilder.remove_node node_id g).1 x y
          ↔ (edge g x y ∧ x ≠ node_id ∧ y ≠ node_id)) ∧
  (node_id ∉ node_ids g → (DAGBuilder.remove_node node_id g).1 = g).
Proof.
  intros (_ & _ & Hends). unfold DAGBuilder.remove_node.
  destruct (has_node g node_id) eqn:Hn; simpl.
  - apply has_node_true in Hn. split_and!; [done| | |done].
    + apply node_ids_remove_node.
    + intros x y. unfold edge; simpl. rewrite list_elem_of_filter. simpl.
      naive_solver.
  - apply has_node_false in Hn. split_and!; [done| |  |done].
    + intros x. split; [|by intros [? _]]. intros Hx.
      split; [done|]. by intros ->.
    + intros x y. split; [|by intros [? _]]. intros Hxy.
      destruct (Hends x y Hxy). split_and!; [done|by intros ->..].
Qed.

Lemma remove_node_outcome_witness :
  (DAGBuilder.remove_node "A" scenario_graph).2 = Ok () ∧
  (DAGBuilder.remove_node "Z" scenario_graph).1 = scenario_graph.
Proof.
  split.
  - apply (remove_node_outcome scenario_graph "A"), scenario_well_formed.
  - apply (remove_node_outcome scenario_graph "Z"); [apply scenario_well_formed|].
    vm_compute. intros H. by repeat (apply elem_of_cons in H as [?|H]);
      try apply elem_of_nil in H.
Defined.

(** [remove_edge] never raises, keeps the nodes, and takes exactly the
    edge [source -> target] away; an absent edge changes nothing. *)
Theorem remove_edge_outcome (g : DiGraph) (source_id target_id : string) :
  (DAGBuilder.remove_edge source_id target_id g).2 = Ok () ∧
  nodes (DAGBuilder.remove_edge source_id target_id g).1 = nodes g ∧
  (∀ x y, edge (DAGBuilder.remove_edge source_id target_id g).1 x y
          ↔ (edge g x y ∧ (x, y) ≠ (source_id, target_id))) ∧
  (has_edge g source_id target_id = false →
   (DAGBuilder.remove_edge source_id target_id g).1 = g).
Proof.
  unfold DAGBuilder.remove_edge.
  destruct (has_edge g source_id target_id) eqn:He; simpl.
  - split_and!; [done..| |done]. intros x y. unfold edge; simpl.
    rewrite list_elem_of_filter. naive_solver.
  - split_and!; [done..| |done]. intros x y.
    split; [|by intros [? _]]. intros Hxy. split; [done|].
    intros [= -> ->]. apply has_edge_true in Hxy. congruence.
Qed.

Section cyclic_input.
Context (g : DiGraph) (Hwf : well_formed g).

(** Under the loop invariant a placed node has all its ancestors placed
    before it. *)
Lemma ancestors_before st x y :
  kahn_invariant g st → tc (edge g) x y →
  y ∈ placed st → before x y (placed st).
Proof.
  intros (Hnd & _ & _ & _ & _ & Hbef & _) Hxy.
  apply NoDup_app in Hnd as (Hnd & _ & _).
  induction Hxy as [x y Hxy|x y z Hxy _ IH]; intros Hin; [by apply Hbef|].
  destruct (IH Hin) as (i2 & j2 & Hi2 & Hj2 & Hlt2).
  destruct (Hbef x y Hxy) as (i1 & j1 & Hi1 & Hj1 & Hlt1).
  { apply list_elem_of_lookup. eauto. }
  assert (j1 = i2) as -> by (by eapply NoDup_lookup).
  exists i1, j2. split_and!; [done..|lia].
Qed.

(** A node on a cycle is never placed. *)
Lemma cycle_never_placed st x :
  kahn_invariant g st → tc (edge g) x x → x ∉ placed st.
Proof.
  intros Hinv Hx Hin.
  destruct (ancestors_before st x x Hinv Hx Hin) as (i & j & Hi & Hj & Hlt).
  destruct Hinv as (Hnd & _). apply NoDup_app in Hnd as (Hnd & _ & _).
  assert (i = j) by (by eapply NoDup_lookup). lia.
Qed.

End cyclic_input.

(** On a well-formed graph that has a cycle the resolver returns no
    partial plan: it raises the error of its final check. *)
Theorem resolver_rejects_cycle (g : DiGraph) (fuel : nat) (x : string) :
  well_formed g → tc (edge g) x x → length (nodes g) < fuel →
  DependencyResolver.resolve_dependencies fuel g
  = Some (Raise DependencyResolver.ConsistencyError).
Proof.
  intros Hwf Hx Hfuel.
  destruct (while_queue_enough g Hwf fuel (DependencyResolver.initial_state g))
    as (st & Hrun & Hinv & Hq);
    [by apply initial_invariant|simpl; lia|].
  pose proof (cycle_never_placed g st x Hinv Hx) as Hout.
  destruct Hinv as (Hnd & Hsub & _ & _ & Hvis & _).
  rewrite Hq, app_nil_r in *.
  unfold DependencyResolver.resolve_dependencies. rewrite Hrun, Hvis.
  rewrite size_list_to_set by done. rewrite decide_True; [done|].
  assert (length (x :: placed st) ≤ length (node_ids g)) as Hlen.
  { apply submseteq_length, NoDup_submseteq; [by apply NoDup_cons|].
    intros y [->|Hy]%elem_of_cons; [|by apply Hsub].
    destruct Hwf as (_ & _ & Hends).
    apply tc_nsteps in Hx as (k & Hk & Hst). inv Hst; [lia|].
    eapply proj1, Hends. eassumption. }
  unfold node_ids in Hlen. rewrite length_fmap in Hlen. simpl in Hlen. lia.
Qed.

Lemma resolver_rejects_cycle_witness :
  DependencyResolver.resolve_dependencies 3
    (Graph [("A", NodeData "SMA" (PDict [("sources", PList [])]));
            ("B", NodeData "SMA" (PDict [("sources", PList [])]))]
           [("A", "B"); ("B", "A")])
  = Some (Raise DependencyResolver.ConsistencyError).
Proof.
  apply (resolver_rejects_cycle _ 3 "A").
  - split_and!.
    + vm_compute. apply NoDup_cons. split; [|apply NoDup_singleton].
      by intros ?%list_elem_of_singleton.
    + simpl. apply NoDup_cons. split; [|apply NoDup_singleton].
      by intros ?%list_elem_of_singleton.
    + intros u v Huv. unfold edge in Huv. simpl in Huv. vm_compute.
      apply elem_of_cons in Huv as [[= -> ->]|Huv].
      * split; [apply list_elem_of_here|].
        apply list_elem_of_further, list_elem_of_here.
      * apply list_elem_of_singleton in Huv as [= -> ->].
        split; [|apply list_elem_of_here].
        apply list_elem_of_further, list_elem_of_here.
  - apply tc_l with "B"; [|apply tc_once]; unfold edge; simpl.
    + apply list_elem_of_here.
    + apply list_elem_of_further, list_elem_of_here.
  - simpl. lia.
Defined.

(** A parameter list of dicts that has an entry with the key ["column"]
    is never stored, whatever the registered kind: once validation lets
    it through, the conversion raises [KeyError('columns')] and the graph
    stays as it was. *)
Theorem add_node_column_entry_raises (g : DiGraph) (node_id node_type : string)
  (entries : list value) :
  is_Some (function_registry !! node_type) → node_id ∉ node_ids g →
  DAGBuilder._validate_parameters node_type (PList entries) = true →
  Forall (λ p, is_dict p = true) entries →
  Exists (λ p, contains "column" p = Ok true) entries →
  DAGBuilder.add_node node_id node_type (PList entries) g
  = (g, Raise (KeyError "columns")).
Proof.
  intros [entry Hreg] Hfresh%has_node_false Hvalid Hdicts Hcol.
  unfold DAGBuilder.add_node, get_operation_function.
  rewrite Hreg, Hfresh, Hvalid. simpl.
  unfold DAGBuilder._convert_to_internal_parameters. simpl.
  by rewrite foldM_convert_column.
Qed.

Lemma add_node_column_entry_raises_witness :
  DAGBuilder.add_node "2" "SMA"
    (PList [PDict [("window_size", PInt 5)]; PDict [("column", PStr "col3")]])
    scenario_graph
  = (scenario_graph, Raise (KeyError "columns")).
Proof.
  apply (add_node_column_entry_raises scenario_graph "2" "SMA").
  - vm_compute. eauto.
  - vm_compute. intros H. by repeat (apply elem_of_cons in H as [?|H]);
      try apply elem_of_nil in H.
  - reflexivity.
  - by repeat constructor.
  - apply Exists_cons_tl, Exists_cons_hd. reflexivity.
Defined.

(* ===================================================================== *)
(** ** The builder: outcomes of single calls *)
(* ===================================================================== *)

Lemma add_edge_raise_keeps_graph (g : DiGraph) (source_id target_id : string)
  (e : exn) :
  well_formed g → acyclic g →
  (DAGBuilder.add_edge source_id target_id g).2 = Raise e →
  (DAGBuilder.add_edge source_id target_id g).1 = g.
Proof.
  intros Hwf Hac.
  destruct (decide (source_id ∈ node_ids g ∧ target_id ∈ node_ids g))
    as [[Hs Ht]|Hmiss].
  - rewrite add_edge_present by done.
    destruct (has_simple_cycles _) eqn:Hcyc; [|done]. simpl. intros _.
    apply remove_add_edge. intros Hst. apply (Hac source_id).
    apply has_simple_cycles_true in Hcyc; [|by apply well_formed_add_edge].
    apply cycle_after_add_edge in Hcyc; [|done].
    eapply tc_rtc_r; [by apply tc_once|done].
  - rewrite add_edge_missing; [done|].
    destruct (decide (source_id ∈ node_ids g)); [|by left].
    right. intros ?. by apply Hmiss.
Qed.

(** On a graph of the store, a call of [add_edge] that raises leaves the
    graph exactly as it was, and what it raises is one of its two
    errors. *)
Theorem add_edge_failure_is_atomic (g : DiGraph) (source_id target_id : string)
  (e : exn) :
  well_formed g → acyclic g →
  (DAGBuilder.add_edge source_id target_id g).2 = Raise e →
  (DAGBuilder.add_edge source_id target_id g).1 = g ∧
  (e = DAGBuilder.NodeNotFoundError ∨ e = DAGBuilder.CycleError).
Proof.
  intros Hwf Hac Hr. split; [by eapply add_edge_raise_keeps_graph|].
  revert Hr. unfold DAGBuilder.add_edge.
  destruct (negb _ || negb _); simpl; [intros [= <-]; by left|].
  destruct (has_simple_cycles _); simpl; [|done].
  intros [= <-]. by right.
Qed.

Lemma add_edge_failure_is_atomic_witness :
  (DAGBuilder.add_edge "B" "A" scenario_graph).1 = scenario_graph ∧
  (DAGBuilder.CycleError = DAGBuilder.NodeNotFoundError
   ∨ DAGBuilder.CycleError = DAGBuilder.CycleError).
Proof.
  apply (add_edge_failure_is_atomic scenario_graph "B" "A").
  - apply scenario_well_formed.
  - apply scenario_acyclic.
  - vm_compute. reflexivity.
Defined.

(** A call of [add_node] that returns has found the id unused and the
    kind registered, and has put exactly one node, with the converted
    parameters, after the others; the edges are the same. *)
Theorem add_node_success (g : DiGraph) (node_id node_type : string)
  (parameters : value) :
  (DAGBuilder.add_node node_id node_type parameters g).2 = Ok () →
  (node_id ∉ node_ids g) ∧
  is_Some (function_registry !! node_type) ∧
  ∃ internal,
    DAGBuilder._convert_to_internal_parameters parameters = Ok internal ∧
    (DAGBuilder.add_node node_id node_type parameters g).1
    = Graph (nodes g ++ [(node_id, NodeData node_type internal)]) (edges g).
Proof.
  unfold DAGBuilder.add_node, get_operation_function.
  destruct (function_registry !! node_type) as [entry|]; simpl; [|done].
  destruct (has_node g node_id) eqn:Hn; [done|].
  destruct (negb _); [done|].
  destruct (DAGBuilder._convert_to_internal_parameters parameters)
    as [internal|] eqn:Hc; [|done].
  intros _. apply has_node_false in Hn. split_and!; [done|by eexists|].
  exists internal. split; [done|]. simpl. unfold NX.add_node.
  by rewrite update_node_fresh.
Qed.

Lemma add_node_success_witness :
  ("C" ∉ node_ids scenario_graph) ∧
  is_Some (function_registry !! "SMA") ∧
  ∃ internal,
    DAGBuilder._convert_to_internal_parameters (PList []) = Ok internal ∧
    (DAGBuilder.add_node "C" "SMA" (PList []) scenario_graph).1
    = Graph (nodes scenario_graph ++ [("C", NodeData "SMA" internal)])
            (edges scenario_graph).
Proof.
  apply (add_node_success scenario_graph "C" "SMA" (PList [])).
  vm_compute. reflexivity.
Defined.

(** *** Nodes of kind ADD *)

Lemma last_value_cons_dict d entries :
  last_value (PDict d :: entries)
  = match last_value entries with
    | Some v => Some v
    | None => dict_get d "value"
    end.
Proof.
  unfold last_value. simpl.
  destruct (dict_get d "value") as [v|]; [rewrite last_cons|];
    by destruct (last _).
Qed.

(** Entries without a column convert to the dict with ["sources"] and
    the value of the last entry that has one. *)
Lemma foldM_convert_values entries : ∀ rest,
  rest = [] ∨ (∃ v0, rest = [("value", v0)]) →
  Forall (λ p, ∃ d, p = PDict d ∧ dict_has d "column" = false) entries →
  foldM DAGBuilder.convert_param (PDict (("sources", PList []) :: rest))
        entries
  = Ok (PDict (("sources", PList []) ::
               match last_value entries with
               | Some v => [("value", v)]
               | None => rest
               end)).
Proof.
  induction entries as [|p entries IH]; intros rest Hrest Hall; [done|].
  apply Forall_cons in Hall as [(d & -> & Hd) Hall].
  rewrite foldM_cons, last_value_cons_dict.
  destruct (dict_get d "value") as [v|] eqn:Hv.
  - assert (DAGBuilder.convert_param (PDict (("sources", PList []) :: rest))
              (PDict d)
            = Ok (PDict [("sources", PList []); ("value", v)])) as ->.
    { unfold DAGBuilder.convert_param, contains. rewrite Hd.
      unfold dict_has, getitem. rewrite Hv. simpl.
      by destruct Hrest as [->|[v0 ->]]. }
    rewrite bind_Ok, IH by eauto. by destruct (last_value entries).
  - assert (DAGBuilder.convert_param (PDict (("sources", PList []) :: rest))
              (PDict d)
            = Ok (PDict (("sources", PList []) :: rest))) as ->.
    { unfold DAGBuilder.convert_param, contains. rewrite Hd.
      unfold dict_has. by rewrite Hv. }
    rewrite bind_Ok, IH by done. by destruct (last_value entries).
Qed.

Lemma value_entry_plain p :
  value_entry p → ∃ d, p = PDict d ∧ dict_has d "column" = false.
Proof. intros (d & v & -> & ? & _). eauto. Qed.

Lemma value_entry_valid p :
  value_entry p →
  is_dict p = true ∧ DAGBuilder.valid_ADD_param p = true.
Proof.
  intros (d & v & -> & Hc & Hv & Hnum). split; [done|]. simpl.
  rewrite Hc. unfold dict_has. by rewrite Hv.
Qed.

(** Validated entries that convert are value entries. *)
Lemma converted_ADD_entries entries : ∀ items v,
  dict_get items "columns" = None →
  forallb is_dict entries = true →
  forallb DAGBuilder.valid_ADD_param entries = true →
  foldM DAGBuilder.convert_param (PDict items) entries = Ok v →
  Forall value_entry entries.
Proof.
  induction entries as [|p entries IH]; intros items v Hnone Hd Hvalid Hconv;
    [constructor|].
  simpl in Hd, Hvalid. apply andb_true_iff in Hd as [Hp Hd].
  apply andb_true_iff in Hvalid as [Hpv Hvalid].
  rewrite foldM_cons in Hconv.
  destruct (DAGBuilder.convert_param (PDict items) p) as [w|e] eqn:Hw;
    [|done].
  destruct (convert_param_no_columns _ _ _ Hnone Hw) as (items' & -> & ?).
  rewrite bind_Ok in Hconv. constructor; [|by eapply IH].
  destruct p as [| | | | | |d]; try done.
  unfold DAGBuilder.convert_param, contains in Hw. simpl in Hpv.
  destruct (dict_has d "column") eqn:Hc.
  { simpl in Hw. by rewrite Hnone in Hw. }
  destruct (dict_has d "value") eqn:Hval; [|done].
  destruct (dict_get d "value") as [x|] eqn:Hx; [|done].
  by exists d, x.
Qed.

(** A node of kind ADD is stored exactly when its id is unused and its
    parameters are a list of value entries; what is stored is the dict
    with ["sources"] and the value of the last entry. *)
Theorem add_node_ADD_stored_iff (g : DiGraph) (node_id : string)
  (parameters : value) :
  ((DAGBuilder.add_node node_id "ADD" parameters g).2 = Ok ()
   ↔ (node_id ∉ node_ids g) ∧
     ∃ entries, parameters = PList entries ∧ Forall value_entry entries) ∧
  (∀ entries,
     node_id ∉ node_ids g → Forall value_entry entries →
     DAGBuilder.add_node node_id "ADD" (PList entries) g
     = (Graph (nodes g ++ [(node_id,
                            NodeData "ADD" (stored_parameters entries))])
              (edges g),
        Ok ())).
Proof.
  assert (∀ entries,
    node_id ∉ node_ids g → Forall value_entry entries →
    DAGBuilder.add_node node_id "ADD" (PList entries) g
    = (Graph (nodes g ++ [(node_id,
                           NodeData "ADD" (stored_parameters entries))])
             (edges g), Ok ())) as Hstore.
  { intros entries Hfresh Hall. unfold DAGBuilder.add_node.
    replace (get_operation_function "ADD")
      with (Ok (add_operation, ["columns"; "value"])) by (by vm_compute).
    apply has_node_false in Hfresh as Hf. rewrite Hf.
    assert (DAGBuilder._validate_parameters "ADD" (PList entries) = true)
      as ->.
    { unfold DAGBuilder._validate_parameters. simpl.
      assert (forallb is_dict entries = true) as ->.
      { apply forallb_forall. intros p Hp%list_elem_of_In.
        eapply Forall_forall in Hall; [|done]. by apply value_entry_valid. }
      apply forallb_forall. intros p Hp%list_elem_of_In.
      eapply Forall_forall in Hall; [|done]. by apply value_entry_valid. }
    simpl. unfold DAGBuilder._convert_to_internal_parameters. simpl.
    rewrite (foldM_convert_values entries []); [|by left|].
    - unfold NX.add_node. by rewrite update_node_fresh.
    - eapply Forall_impl; [done|]. apply value_entry_plain. }
  split; [|done]. split.
  - intros Hok. pose proof (add_node_success _ _ _ _ Hok)
      as (Hfresh & _ & internal & Hconv & _).
    split; [done|]. revert Hok. unfold DAGBuilder.add_node.
    replace (get_operation_function "ADD")
      with (Ok (add_operation, ["columns"; "value"])) by (by vm_compute).
    apply has_node_false in Hfresh as ->.
    destruct (DAGBuilder._validate_parameters "ADD" parameters) eqn:Hvalid;
      [|done].
    intros _. unfold DAGBuilder._validate_parameters in Hvalid.
    simpl in Hvalid. destruct parameters as [| | | | |entries|]; try done.
    destruct (forallb is_dict entries) eqn:Hd; [|done].
    exists entries. split; [done|].
    unfold DAGBuilder._convert_to_internal_parameters in Hconv.
    simpl in Hconv.
    by apply (converted_ADD_entries entries [("sources", PList [])] internal).
  - intros (Hfresh & entries & -> & Hall). by rewrite Hstore.
Qed.

(* ===================================================================== *)
(** ** What is stored, and what executing it does *)
(* ===================================================================== *)

Lemma dict_has_set d k v k' :
  dict_has (dict_set d k v) k' = true → k' = k ∨ dict_has d k' = true.
Proof.
  destruct (decide (k' = k)) as [->|Hne]; [by left|]. right.
  unfold dict_has in *. by rewrite dict_get_set_ne in * by done.
Qed.

Lemma storable_keys_no_columns items :
  (∀ k, dict_has items k = true → k = "sources" ∨ k = "value") →
  dict_get items "columns" = None.
Proof.
  intros Hkeys. destruct (dict_get items "columns") eqn:Hc; [|done].
  destruct (Hkeys "columns") as [?|?]; [|done..].
  unfold dict_has. by rewrite Hc.
Qed.

Lemma convert_param_keys items param v :
  (∀ k, dict_has items k = true → k = "sources" ∨ k = "value") →
  DAGBuilder.convert_param (PDict items) param = Ok v →
  ∃ items', v = PDict items' ∧
    ∀ k, dict_has items' k = true → k = "sources" ∨ k = "value".
Proof.
  intros Hkeys. pose proof (storable_keys_no_columns _ Hkeys) as Hnone.
  unfold DAGBuilder.convert_param.
  destruct (contains "column" param) as [[|]|e]; simpl; [| |done].
  - by rewrite Hnone.
  - destruct (contains "value" param) as [[|]|e]; simpl; [| |done].
    + destruct (getitem param "value") as [w|e]; simpl; [|done].
      intros [= <-]. eexists. split; [done|].
      intros k [->|Hk]%dict_has_set; [by right|by apply Hkeys].
    + intros [= <-]. eauto.
Qed.

Lemma convert_to_internal_keys parameters v :
  DAGBuilder._convert_to_internal_parameters parameters = Ok v →
  ∃ items, v = PDict items ∧
    ∀ k, dict_has items k = true → k = "sources" ∨ k = "value".
Proof.
  unfold DAGBuilder._convert_to_internal_parameters.
  destruct (iter parameters) as [ps|e]; simpl; [|done].
  assert (∀ k, dict_has [("sources", PList [])] k = true →
               k = "sources" ∨ k = "value") as Hinit.
  { intros k. unfold dict_has.
    change (dict_get [("sources", PList [])] k)
      with (if String.eqb "sources" k then Some (PList []) else None).
    destruct (String.eqb_spec "sources" k) as [<-|]; [by left|done]. }
  revert Hinit. generalize [("sources", PList [])]. revert v.
  induction ps as [|p ps IH]; intros v items Hkeys; simpl.
  - intros [= <-]. eauto.
  - destruct (DAGBuilder.convert_param (PDict items) p) as [w|e] eqn:Hp;
      simpl; [|done].
    destruct (convert_param_keys _ _ _ Hkeys Hp) as (items' & -> & ?).
    by apply IH.
Qed.

Lemma add_node_raise_keeps_graph g node_id node_type parameters e :
  (DAGBuilder.add_node node_id node_type parameters g).2 = Raise e →
  (DAGBuilder.add_node node_id node_type parameters g).1 = g.
Proof.
  unfold DAGBuilder.add_node.
  destruct (get_operation_function node_type); [|done].
  destruct (has_node g node_id); [done|].
  destruct (negb _); [done|].
  by destruct (DAGBuilder._convert_to_internal_parameters parameters).
Qed.

Lemma run_stored_shape c g :
  stored_shape g → stored_shape (DAGBuilder.run c g).1.
Proof.
  intros Hshape. destruct c as [node_id node_type parameters|node_id|s t|s t];
    simpl.
  - destruct (DAGBuilder.add_node node_id node_type parameters g).2 as [[]|e]
      eqn:Hres.
    + destruct (add_node_success _ _ _ _ Hres)
        as (_ & Hreg & internal & Hconv & ->).
      intros n d. simpl.
      rewrite elem_of_app, list_elem_of_singleton. intros [?|[= -> ->]].
      * by apply (Hshape n).
      * split; [done|]. by apply convert_to_internal_keys in Hconv.
    + by rewrite (add_node_raise_keeps_graph _ _ _ _ _ Hres).
  - unfold DAGBuilder.remove_node. destruct (has_node g node_id); [|done].
    intros n d [_ Hin]%list_elem_of_filter. by apply (Hshape n).
  - unfold DAGBuilder.add_edge.
    destruct (negb _ || negb _); [done|].
    destruct (has_simple_cycles _); intros n d; simpl;
      rewrite nodes_add_edge; apply Hshape.
  - unfold DAGBuilder.remove_edge. by destruct (has_edge g s t).
Qed.

Lemma accepted_stored_shape g : DAGBuilder.accepted g → stored_shape g.
Proof.
  intros [calls ->]. induction calls as [|c calls IH] using rev_ind.
  - by intros n d ?%elem_of_nil.
  - rewrite replay_snoc. by apply run_stored_shape.
Qed.

(** Each registered kind requires, first of all, a name that is neither
    ["sources"] nor ["value"]. *)
Lemma first_required_name node_type op required :
  function_registry !! node_type = Some (op, required) →
  ∃ r rest, required = r :: rest ∧ r ≠ "sources" ∧ r ≠ "value".
Proof.
  intros H%elem_of_list_to_map_2.
  repeat (apply elem_of_cons in H as [[= -> -> ->]|H]; [by eauto|]).
  by apply elem_of_nil in H.
Qed.

(** No node built through the store's calls can be executed:
    [execute_node] on any stored node raises the missing-parameter error
    with a non-empty list, before the operation is invoked. *)
Theorem stored_nodes_fail_at_execution (g : DiGraph)
  (invoke : operation → value → result value) (n : string) (d : node_data) :
  DAGBuilder.accepted g → (n, d) ∈ nodes g →
  ∃ missing, missing ≠ [] ∧
    DependencyResolver.execute_node invoke d n
    = Raise (DependencyResolver.MissingParameterError n (type d) missing).
Proof.
  intros Hshape%accepted_stored_shape Hin.
  destruct (Hshape n d Hin) as ([[op required] Hreg] & items & Hd & Hkeys).
  destruct d as [ty ps]. simpl in *. subst ps.
  rewrite (execute_node_dict _ _ _ op required) by done.
  destruct (first_required_name _ _ _ Hreg) as (r & rest & -> & Hr1 & Hr2).
  rewrite filter_cons_True.
  - eexists. split; [|done]. done.
  - destruct (dict_has items r) eqn:Hr; [|done].
    by destruct (Hkeys r Hr).
Qed.

Lemma stored_nodes_fail_at_execution_witness :
  ∃ missing, missing ≠ [] ∧
    DependencyResolver.execute_node (λ _ _, Ok PNone)
      (NodeData "ADD" (PDict [("sources", PList []); ("value", PInt 5)])) "A"
    = Raise (DependencyResolver.MissingParameterError "A" "ADD" missing).
Proof.
  apply (stored_nodes_fail_at_execution scenario_graph (λ _ _, Ok PNone) "A"
           (NodeData "ADD" (PDict [("sources", PList []); ("value", PInt 5)]))).
  - exists scenario_calls. reflexivity.
  - vm_compute. apply list_elem_of_here.
Defined.

(* ===================================================================== *)
(** ** The resolver: what the plan holds *)
(* ===================================================================== *)

Lemma lookup_node_elem ns n d :
  NoDup ns.*1 → (n, d) ∈ ns → lookup_node ns n = Some d.
Proof.
  induction ns as [|[n' d'] ns IH]; simpl; [by intros _ ?%elem_of_nil|].
  rewrite NoDup_cons. intros [Hn' Hnd] [[= -> ->]|Hin]%elem_of_cons.
  - by rewrite String.eqb_refl.
  - destruct (String.eqb_spec n' n) as [->|]; [|by apply IH].
    destruct Hn'. apply list_elem_of_fmap. by exists (n, d).
Qed.

(** On a well-formed graph every delayed call of a returned plan is
    [execute_node] on a node of the graph: the attributes the graph stores
    for it, and its id. *)
Theorem plan_entries_are_stored_nodes (g : DiGraph) (fuel : nat)
  (plan : list DependencyResolver.delayed) (op : DependencyResolver.delayed) :
  well_formed g →
  DependencyResolver.resolve_dependencies fuel g = Some (Ok plan) →
  op ∈ plan → lookup_node (nodes g) op.2 = Some op.1.
Proof.
  intros Hwf Hrun Hop.
  unfold DependencyResolver.resolve_dependencies in Hrun.
  destruct (DependencyResolver.while_queue fuel g _) as [[st|e]|] eqn:Hloop;
    [|done..].
  destruct (decide _); [done|]. injection Hrun as <-.
  assert (kahn_invariant g st) as (_ & _ & _ & _ & _ & _ & Hplan).
  { clear Hop. pose proof (initial_invariant g Hwf) as Hinv.
    revert Hinv Hloop. generalize (DependencyResolver.initial_state g).
    induction fuel as [|fuel IH]; intros [queue visited m pl] Hinv; [done|].
    simpl. destruct queue as [|x q]; [by intros [= <-]|].
    destruct (kahn_step g Hwf _ _ _ _ x q Hinv eq_refl)
      as (data & m' & q' & Hdata & Hfold & Hinv').
    rewrite Hdata, Hfold. by apply IH. }
  apply lookup_node_elem; [by destruct Hwf|]. by apply Hplan.
Qed.

Lemma plan_entries_are_stored_nodes_witness :
  lookup_node (nodes scenario_graph) "B"
  = Some (NodeData "SMA" (PDict [("sources", PList [])])).
Proof.
  apply (plan_entries_are_stored_nodes scenario_graph 3
    [ (NodeData "ADD" (PDict [("sources", PList []); ("value", PInt 5)]), "A");
      (NodeData "SMA" (PDict [("sources", PList [])]), "B") ]
    (NodeData "SMA" (PDict [("sources", PList [])]), "B")).
  - apply scenario_well_formed.
  - vm_compute. reflexivity.
  - apply list_elem_of_further, list_elem_of_here.
Defined.

(** What is in the queue leaves it in order, ahead of everything that
    joins later. *)
Lemma while_queue_fifo (g : DiGraph) fuel : ∀ st st',
  DependencyResolver.while_queue fuel g st = Some (Ok st') →
  ∃ tail, placed st' = placed st ++ DependencyResolver.queue st ++ tail.
Proof.
  induction fuel as [|fuel IH]; intros [queue visited m plan] st'; [done|].
  simpl. destruct queue as [|n q].
  - intros [= <-]. exists []. by rewrite !app_nil_r.
  - destruct (lookup_node (nodes g) n) as [data|]; [|done].
    destruct (foldM DependencyResolver.relax (m, q) (successors g n))
      as [[m' q']|e] eqn:Hfold; [|done].
    intros (tail & ->)%IH. unfold placed. simpl.
    assert (∃ new, q' = q ++ new) as [new ->].
    { clear -Hfold. revert m q Hfold.
      induction (successors g n) as [|s ss IHs]; intros m q.
      - intros [= _ <-]. exists []. by rewrite app_nil_r.
      - rewrite foldM_cons.
        destruct (DependencyResolver.relax (m, q) s) as [[m1 q1]|e] eqn:Hr;
          [|done].
        rewrite bind_Ok. intros (new & ->)%IHs.
        unfold DependencyResolver.relax in Hr. simpl in Hr.
        destruct (m !! s) as [d|]; [|done].
        destruct (decide (d - 1 = 0)%Z); injection Hr as _ <-.
        + exists (s :: new). by rewrite <-app_assoc.
        + by exists new. }
    exists (new ++ tail). rewrite fmap_app. simpl.
    by rewrite <-!app_assoc.
Qed.

Lemma initial_indegree (g : DiGraph) n :
  NoDup (node_ids g) → n ∈ node_ids g →
  DependencyResolver.indegree_map (DependencyResolver.initial_state g) !! n
  = Some (in_degree g n).
Proof.
  intros Hnd Hn. simpl. apply elem_of_list_to_map_1.
  - rewrite <-list_fmap_compose. by rewrite (list_fmap_ext _ id), list_fmap_id.
  - apply list_elem_of_fmap. by exists n.
Qed.

(** Tie-breaking: a returned plan starts with the nodes that have no
    incoming edge, in the order in which they were added to the graph. *)
Theorem sources_lead_the_plan (g : DiGraph) (fuel : nat)
  (plan : list DependencyResolver.delayed) :
  well_formed g →
  DependencyResolver.resolve_dependencies fuel g = Some (Ok plan) →
  ∃ tail,
    DependencyResolver.node_of <$> plan
    = filter (λ n, in_degree g n = 0%Z) (node_ids g) ++ tail.
Proof.
  intros (Hnd & _ & _) Hrun.
  unfold DependencyResolver.resolve_dependencies in Hrun.
  destruct (DependencyResolver.while_queue fuel g _) as [[st|e]|] eqn:Hloop;
    [|done..].
  destruct (decide _) as [|_]; [done|]. injection Hrun as <-.
  apply while_queue_fifo in Hloop as [tail Hplaced].
  exists tail. unfold placed in Hplaced at 1. rewrite Hplaced.
  unfold placed. simpl. f_equal. apply filter_ext_elem. intros n Hn.
  pose proof (initial_indegree g n Hnd Hn) as Hdeg. simpl in Hdeg.
  rewrite Hdeg. split; [by intros [= ->]|by intros ->].
Qed.

Lemma sources_lead_the_plan_witness :
  ∃ tail,
    ["A"; "B"]
    = filter (λ n, in_degree scenario_graph n = 0%Z)
             (node_ids scenario_graph) ++ tail.
Proof.
  apply (sources_lead_the_plan scenario_graph 3
    [ (NodeData "ADD" (PDict [("sources", PList []); ("value", PInt 5)]), "A");
      (NodeData "SMA" (PDict [("sources", PList [])]), "B") ]).
  - apply scenario_well_formed.
  - vm_compute. reflexivity.
Defined.

(* ===================================================================== *)
(** ** Loading a persisted document *)
(* ===================================================================== *)

Lemma load_param_entry e :
  DAGBuilder.load_param (entry_json e) = Ok (entry_json e).
Proof. by destruct e. Qed.

Lemma mapM_load_param_entries es :
  mapM DAGBuilder.load_param (entry_json <$> es) = Ok (entry_json <$> es).
Proof.
  induction es as [|e es IH]; [done|]. rewrite fmap_cons.
  change (mapM DAGBuilder.load_param (entry_json e :: (entry_json <$> es)))
    with (DAGBuilder.load_param (entry_json e) ≫= λ y,
          mapM DAGBuilder.load_param (entry_json <$> es) ≫= λ ys,
          Ok (y :: ys)).
  by rewrite load_param_entry, bind_Ok, IH.
Qed.

Lemma load_node_json n g :
  DAGBuilder.load_node (node_json n) g
  = DAGBuilder.add_node (spec_id n) (spec_type n)
      (PList (entry_json <$> spec_parameters n)) g.
Proof.
  unfold DAGBuilder.load_node, node_json.
  change (getitem (PDict _) "parameters")
    with (Ok (PList (entry_json <$> spec_parameters n))).
  rewrite bind_Ok. change (iter (PList ?l)) with (Ok l).
  rewrite bind_Ok, mapM_load_param_entries. done.
Qed.

Lemma load_edge_json e g :
  DAGBuilder.load_edge (DAGBuilder.edge_to_json e) g
  = DAGBuilder.add_edge e.1 e.2 g.
Proof. done. Qed.

Lemma run_all_app calls1 calls2 g :
  run_all (calls1 ++ calls2) g
  = match run_all calls1 g with
    | (g', Ok _) => run_all calls2 g'
    | (g', Raise e) => (g', Raise e)
    end.
Proof.
  revert g. induction calls1 as [|c calls1 IH]; intros g; [done|]. simpl.
  destruct (DAGBuilder.run c g) as [g' [[]|e]]; [apply IH|done].
Qed.

Lemma for_each_run {A} (step : value → DAGBuilder.method unit)
  (json : A → value) (call : A → DAGBuilder.call) (xs : list A) :
  (∀ x g, step (json x) g = DAGBuilder.run (call x) g) →
  ∀ g, DAGBuilder.for_each step (json <$> xs) g = run_all (call <$> xs) g.
Proof.
  intros Hstep. induction xs as [|x xs IH]; intros g; [done|]. simpl.
  rewrite Hstep. destruct (DAGBuilder.run (call x) g) as [g' [[]|e]];
    [apply IH|done].
Qed.

Lemma run_accepted c g :
  DAGBuilder.accepted g → DAGBuilder.accepted (DAGBuilder.run c g).1.
Proof.
  intros [calls ->]. exists (calls ++ [c]). by rewrite replay_snoc.
Qed.

Lemma run_all_accepted calls : ∀ g,
  DAGBuilder.accepted g → DAGBuilder.accepted (run_all calls g).1.
Proof.
  induction calls as [|c calls IH]; intros g Hg; [done|]. simpl.
  pose proof (run_accepted c g Hg) as Hc.
  destruct (DAGBuilder.run c g) as [g' [[]|e]]; [by apply IH|done].
Qed.

(** Loading a document of the persisted schema is the calls a client
    would make, [add_node] for each node and then [add_edge] for each
    edge, in document order on an emptied builder, ending at the first
    call that raises, with that call's exception.  The graph the builder
    held before plays no part, also when the load fails; the graph left
    behind is one the store accepts. *)
Theorem load_replays_calls (ns : list node_spec)
  (es : list (string * string)) (g : DiGraph) :
  DAGBuilder.load_from_file (document ns es) g
  = run_all (calls_of ns es) empty_graph ∧
  DAGBuilder.accepted (DAGBuilder.load_from_file (document ns es) g).1.
Proof.
  assert (DAGBuilder.load_from_file (document ns es) g
          = run_all (calls_of ns es) empty_graph) as Hload.
  { unfold DAGBuilder.load_from_file, document, calls_of, NX.clear.
    change (getitem (PDict _) "nodes") with (Ok (PList (node_json <$> ns))).
    change (getitem (PDict _) "edges")
      with (Ok (PList (DAGBuilder.edge_to_json <$> es))).
    rewrite !bind_Ok. change (iter (PList ?l)) with (Ok l).
    rewrite run_all_app.
    rewrite (for_each_run DAGBuilder.load_node node_json
      (λ n, DAGBuilder.AddNode (spec_id n) (spec_type n)
              (PList (entry_json <$> spec_parameters n))))
      by apply load_node_json.
    destruct (run_all _ empty_graph) as [g' [[]|e]]; [|done].
    by apply for_each_run. }
  split; [done|]. rewrite Hload. apply run_all_accepted. by exists [].
Qed.

(* ===================================================================== *)
(** ** The routes *)
(* ===================================================================== *)

(** What the routes of the builder answer, on a graph of the store.
    When an argument of the call cannot be read from the request, the
    answer is 400 with that exception and the graph is untouched.  When
    the request names its nodes and kind by strings, [/add_node] and
    [/add_edge] answer 200 with their message and the graph the builder's
    method left if the method returned, and 400 with the very exception
    the method raised, the graph exactly as before the request, if it
    raised; [/remove_node] and [/remove_edge] answer 200 with their
    message; [/dag] answers 200 with the export, or 400 with the
    exception of the export, and never touches the graph. *)
Theorem failed_request_changes_nothing (g : DiGraph) :
  well_formed g → acyclic g →
  (∀ data e, App.node_arguments data = Raise e →
     App.add_node data g = Some (g, (App.Error e, 400%Z))) ∧
  (∀ data id ty parameters,
     App.node_arguments data = Ok (PStr id, PStr ty, parameters) →
     App.add_node data g = Some
       match DAGBuilder.add_node id ty parameters g with
       | (g', Ok _) => (g', (App.Message "Node added successfully", 200%Z))
       | (_, Raise e) => (g, (App.Error e, 400%Z))
       end) ∧
  (∀ node_id,
     App.remove_node node_id g = Some
       ((DAGBuilder.remove_node node_id g).1,
        (App.Message "Node removed successfully", 200%Z))) ∧
  (∀ data e, App.edge_arguments data = Raise e →
     App.add_edge data g = Some (g, (App.Error e, 400%Z)) ∧
     App.remove_edge data g = Some (g, (App.Error e, 400%Z))) ∧
  (∀ data s t, App.edge_arguments data = Ok (PStr s, PStr t) →
     App.add_edge data g = Some
       match DAGBuilder.add_edge s t g with
       | (g', Ok _) => (g', (App.Message "Edge added successfully", 200%Z))
       | (_, Raise e) => (g, (App.Error e, 400%Z))
       end ∧
     App.remove_edge data g = Some
       ((DAGBuilder.remove_edge s t g).1,
        (App.Message "Edge removed successfully", 200%Z))) ∧
  App.get_dag g = Some
    (g, match DAGBuilder.to_json g with
        | Ok document => (App.Dag document, 200%Z)
        | Raise e => (App.Error e, 400%Z)
        end).
Proof.
  intros Hwf Hac. split_and!.
  - intros data e Hargs. unfold App.add_node. by rewrite Hargs.
  - intros data id ty parameters Hargs. unfold App.add_node.
    rewrite Hargs. simpl.
    pose proof (add_node_raise_keeps_graph g id ty parameters) as Hatomic.
    destruct (DAGBuilder.add_node id ty parameters g) as [g' [[]|e]];
      [done|]. simpl in *. by rewrite (Hatomic e).
  - intros node_id. unfold App.remove_node, DAGBuilder.remove_node.
    by destruct (has_node g node_id).
  - intros data e Hargs. unfold App.add_edge, App.remove_edge.
    by rewrite Hargs.
  - intros data s t Hargs. unfold App.add_edge, App.remove_edge.
    rewrite Hargs. simpl. split.
    + pose proof (add_edge_raise_keeps_graph g s t) as Hatomic.
      destruct (DAGBuilder.add_edge s t g) as [g' [[]|e]]; [done|].
      simpl in *. by rewrite (Hatomic e).
    + unfold DAGBuilder.remove_edge. by destruct (has_edge g s t).
  - unfold App.get_dag. by destruct (DAGBuilder.to_json g).
Qed.

Lemma failed_request_changes_nothing_witness :
  App.add_edge (PDict [("source", PStr "B"); ("target", PStr "A")])
    scenario_graph
  = Some (scenario_graph, (App.Error DAGBuilder.CycleError, 400%Z)).
Proof.
  pose proof (failed_request_changes_nothing scenario_graph
                scenario_well_formed scenario_acyclic)
    as (_ & _ & _ & _ & Hedge & _).
  apply (Hedge (PDict [("source", PStr "B"); ("target", PStr "A")]) "B" "A").
  reflexivity.
Defined.

(* ===================================================================== *)
(** ** How calls compose *)
(* ===================================================================== *)

(** An id that is already in the graph is refused, whatever the
    parameters: with the duplicate error when the kind is registered, and
    with the unknown-kind error, which is tested first, when it is not. *)
Theorem duplicate_id_is_refused (g : DiGraph) (node_id node_type : string)
  (parameters : value) :
  node_id ∈ node_ids g →
  DAGBuilder.add_node node_id node_type parameters g
  = (g, Raise (match function_registry !! node_type with
               | Some _ => DAGBuilder.DuplicateNodeError node_id
               | None => DAGBuilder.UnknownKindError node_type
               end)).
Proof.
  intros Hin%has_node_true. unfold DAGBuilder.add_node, get_operation_function.
  destruct (function_registry !! node_type); simpl; [|done].
  by rewrite Hin.
Qed.

Lemma duplicate_id_is_refused_witness :
  DAGBuilder.add_node "A" "SMA" (PList []) scenario_graph
  = (scenario_graph, Raise (DAGBuilder.DuplicateNodeError "A")).
Proof.
  apply (duplicate_id_is_refused scenario_graph "A" "SMA" (PList [])).
  vm_compute. apply list_elem_of_here.
Defined.

(** Removing a node right after it was added gives back the graph, when
    that graph is well formed. *)
Theorem add_then_remove_node (g : DiGraph) (node_id node_type : string)
  (parameters : value) :
  well_formed g →
  (DAGBuilder.add_node node_id node_type parameters g).2 = Ok () →
  DAGBuilder.remove_node node_id
    (DAGBuilder.add_node node_id node_type parameters g).1
  = (g, Ok ()).
Proof.
  intros (_ & _ & Hends) Hok.
  destruct (add_node_success _ _ _ _ Hok) as (Hfresh & _ & internal & _ & ->).
  unfold DAGBuilder.remove_node.
  assert (has_node (Graph (nodes g ++ [(node_id, NodeData node_type internal)])
                          (edges g)) node_id = true) as ->.
  { apply has_node_true. unfold node_ids. simpl. rewrite fmap_app.
    apply elem_of_app. right. apply list_elem_of_here. }
  f_equal. unfold NX.remove_node. simpl. destruct g as [ns es]. simpl in *.
  f_equal.
  - rewrite filter_app, filter_cons_False, filter_nil, app_nil_r
      by (by intros H; apply H).
    unfold node_ids in Hfresh. simpl in Hfresh. clear Hends Hok.
    induction ns as [|[n d] ns IH]; [done|]. simpl in Hfresh.
    apply not_elem_of_cons in Hfresh as [Hne Hfresh].
    rewrite filter_cons_True by (simpl; congruence). by rewrite IH.
  - assert (∀ e, e ∈ es → e.1 ≠ node_id ∧ e.2 ≠ node_id) as Hclean.
    { intros [u v] Huv. destruct (Hends u v Huv). simpl.
      split; by intros ->. }
    clear Hends Hok. induction es as [|e es IH]; [done|].
    rewrite filter_cons_True by apply Hclean, list_elem_of_here.
    rewrite IH; [done..|]. intros e' He'. by apply Hclean, list_elem_of_further.
Qed.

Lemma add_then_remove_node_witness :
  DAGBuilder.remove_node "C"
    (DAGBuilder.add_node "C" "SMA" (PList []) scenario_graph).1
  = (scenario_graph, Ok ()).
Proof.
  apply (add_then_remove_node scenario_graph "C" "SMA" (PList [])).
  - apply scenario_well_formed.
  - vm_compute. reflexivity.
Defined.

(** Removing an edge right after it was added gives back the graph, when
    the edge was not there before. *)
Theorem add_then_remove_edge (g : DiGraph) (source_id target_id : string) :
  ¬ edge g source_id target_id →
  (DAGBuilder.add_edge source_id target_id g).2 = Ok () →
  DAGBuilder.remove_edge source_id target_id
    (DAGBuilder.add_edge source_id target_id g).1
  = (g, Ok ()).
Proof.
  intros Hnew. unfold DAGBuilder.add_edge.
  destruct (negb _ || negb _); [done|].
  destruct (has_simple_cycles _); [done|]. simpl. intros _.
  unfold DAGBuilder.remove_edge.
  assert (has_edge (NX.add_edge g source_id target_id) source_id target_id
          = true) as ->.
  { apply has_edge_true, edge_add_edge. by right. }
  by rewrite remove_add_edge.
Qed.

Lemma add_then_remove_edge_witness :
  DAGBuilder.remove_edge "A" "B"
    (DAGBuilder.add_edge "A" "B"
       (DAGBuilder.replay [DAGBuilder.AddNode "A" "SMA" (PList []);
                           DAGBuilder.AddNode "B" "SMA" (PList [])])).1
  = (DAGBuilder.replay [DAGBuilder.AddNode "A" "SMA" (PList []);
                        DAGBuilder.AddNode "B" "SMA" (PList [])], Ok ()).
Proof.
  apply (add_then_remove_edge _ "A" "B").
  - vm_compute. by intros ?%elem_of_nil.
  - vm_compute. reflexivity.
Defined.

(** On a graph of the store, adding an edge that is already there
    returns and changes nothing. *)
Theorem add_existing_edge (g : DiGraph) (source_id target_id : string) :
  well_formed g → acyclic g → edge g source_id target_id →
  DAGBuilder.add_edge source_id target_id g = (g, Ok ()).
Proof.
  intros Hwf Hac Hst. pose proof Hwf as (_ & _ & Hends).
  destruct (Hends _ _ Hst) as [Hs Ht]. rewrite add_edge_present by done.
  assert (NX.add_edge g source_id target_id = g) as ->.
  { unfold NX.add_edge. by apply has_edge_true in Hst as ->. }
  by apply has_simple_cycles_false in Hac as ->.
Qed.

Lemma add_existing_edge_witness :
  DAGBuilder.add_edge "A" "B" scenario_graph = (scenario_graph, Ok ()).
Proof.
  apply (add_existing_edge scenario_graph "A" "B").
  - apply scenario_well_formed.
  - apply scenario_acyclic.
  - vm_compute. apply list_elem_of_here.
Defined.

(** With every required name among the keys of the node's parameter
    dict, [execute_node] invokes the operation registered for the kind,
    once, on that dict, and raises exactly what the operation raises; for
    a kind the registry does not have it raises the unsupported-type
    error without invoking anything. *)
Theorem execute_node_invokes_operation
  (invoke : operation → value → result value) (node_id node_type : string)
  (items : list (string * value)) :
  match function_registry !! node_type with
  | Some (op, required) =>
      Forall (λ r, dict_has items r = true) required →
      DependencyResolver.execute_node invoke
        (NodeData node_type (PDict items)) node_id
      = match invoke op (PDict items) with
        | Ok _ => Ok ()
        | Raise e => Raise e
        end
  | None =>
      DependencyResolver.execute_node invoke
        (NodeData node_type (PDict items)) node_id
      = Raise (ValueError ("Unsupported node type: " +:+ node_type))
  end.
Proof.
  destruct (function_registry !! node_type) as [[op required]|] eqn:Hreg.
  - intros Hall. rewrite (execute_node_dict _ _ _ op required) by done.
    assert (filter (λ p, dict_has items p = false) required = []) as ->.
    { apply nil_length_inv, filter_length_zero. intros r Hr Hmiss.
      eapply Forall_forall in Hall; [|done]. congruence. }
    by destruct (invoke op (PDict items)).
  - unfold DependencyResolver.execute_node, get_operation_function. simpl.
    by rewrite Hreg.
Qed.
